(** * Bazimn marketplace server: order lifecycle, escrow settlement and
      authorisation

    A shallow embedding of the HTTP request handler of the marketplace
    server (the file with [handleRequest]), followed by the properties of
    its order / escrow / dispute state machine.

    Modelling conventions.
    - The four in-memory arrays [users], [gigs], [orders], [disputes] and
      the [tokenStore] object form the [state]; a handler is a function
      from a state and a request to a new state and a response.  A handler
      body runs to completion once the request body has been received, so
      one request is one step.
    - JS objects held in an array are mutated in place after [Array.find];
      this is [update_first]: the first element satisfying the predicate is
      replaced, every other element is untouched.
    - Values taken from a JSON body are [jsval]s (JSON primitives).  JS
      numbers are binary64 floating-point values; a string is a sequence
      of characters with codes below 256.
    - [Date.now()] and [generateToken()] are supplied by the environment
      with each request ([now], [fresh]); so are the results of URL parsing
      ([pathname], [searchParams]) and of reading a static file.
    - A request body is a JSON object whose members are primitives; a
      body that fails to parse is [None] and ends in the [catch] branch.
    - [writeJSON] only copies the in-memory arrays to disk and is not
      represented.  Executions start from a first run, where no data file
      exists yet. *)

From Stdlib Require Import ZArith List String Ascii Bool Lia DecimalString
  DecimalNat.
From Stdlib Require Floats.
Import ListNotations.
Open Scope string_scope.
Open Scope list_scope.
Open Scope Z_scope.

(** ** JavaScript values *)

(** A JS number: an IEEE 754 binary64 value, with the arithmetic of the
    hardware. *)
Definition number := PrimFloat.float.

(** The double nearest to [m * 2^e], ties to even. *)
Definition of_binary (m e : Z) : number :=
  FloatOps.SF2Prim
    (SpecFloat.binary_normalize FloatOps.prec FloatOps.emax m e false).

(** The number written as the integer literal [z]. *)
Definition Fin (z : Z) : number := of_binary z 0.

Definition NaN : number := PrimFloat.nan.

(** The double nearest to [m * 10^e] for [m >= 0], negated when [neg].
    For a negative [e] the quotient is computed with more than 64
    significant bits and a sticky last bit, then rounded once. *)
Definition of_decimal (neg : bool) (m e : Z) : number :=
  let sign := fun q : Z => if neg then - q else q in
  if m =? 0 then (if neg then PrimFloat.neg_zero else PrimFloat.zero)
  else if 0 <=? e then of_binary (sign (m * 10 ^ e)) 0
  else
    let d := 10 ^ (- e) in
    let s := Z.max 0 (Z.log2 d + 66 - Z.log2 m) in
    let q := (m * 2 ^ s) / d in
    let sticky := if (m * 2 ^ s) mod d =? 0 then 0 else 1 in
    of_binary (sign (2 * q + sticky)) (- (s + 1)).

Inductive jsval :=
| JUndef
| JNull
| JBool (b : bool)
| JNum (n : number)
| JStr (s : string).

(** [a + b] on numbers. *)
Definition num_add (a b : number) : number := PrimFloat.add a b.

(** [a === b] on numbers: false on NaN, true on the two zeros. *)
Definition num_eq (a b : number) : bool := PrimFloat.eqb a b.

(** Truthiness, as tested by [!v] and [v || d]: a number is falsy when it
    is a zero or NaN. *)
Definition truthy (v : jsval) : bool :=
  match v with
  | JUndef | JNull => false
  | JBool b => b
  | JNum n => negb (num_eq n (Fin 0)) && num_eq n n
  | JStr s => negb (s =? "")%string
  end.

(** [a === b] on primitives. *)
Definition strict_eq (a b : jsval) : bool :=
  match a, b with
  | JUndef, JUndef => true
  | JNull, JNull => true
  | JBool x, JBool y => Bool.eqb x y
  | JNum x, JNum y => num_eq x y
  | JStr x, JStr y => (x =? y)%string
  | _, _ => false
  end.

(** White space and line terminators among the characters below 256. *)
Definition is_space (c : ascii) : bool :=
  let n := Z.of_nat (nat_of_ascii c) in
  (n =? 32) || ((9 <=? n) && (n <=? 13)) || (n =? 160).

Definition digit_of (c : ascii) : option Z :=
  let n := Z.of_nat (nat_of_ascii c) in
  if (48 <=? n) && (n <=? 57) then Some (n - 48) else None.

Fixpoint skip_spaces (s : string) : string :=
  match s with
  | String c r => if is_space c then skip_spaces r else s
  | EmptyString => s
  end.

(** The longest prefix of decimal digits of [s]: its value after the
    digits [acc] already read, how many digits it has, and the rest. *)
Fixpoint digits (s : string) (acc : Z) : Z * nat * string :=
  match s with
  | String c r =>
      match digit_of c with
      | Some d => let '(v, n, rest) := digits r (10 * acc + d) in (v, S n, rest)
      | None => (acc, O, s)
      end
  | EmptyString => (acc, O, s)
  end.

(** An exponent part: [e] or [E], an optional sign and at least one
    digit; 0 when [s] does not start with one. *)
Definition exponent (s : string) : Z :=
  match s with
  | String c r =>
      if (Ascii.eqb c "e" || Ascii.eqb c "E")%bool then
        match r with
        | String "-"%char r' =>
            let '(v, n, _) := digits r' 0 in
            match n with O => 0 | _ => - v end
        | String "+"%char r' =>
            let '(v, n, _) := digits r' 0 in
            match n with O => 0 | _ => v end
        | _ =>
            let '(v, n, _) := digits r 0 in
            match n with O => 0 | _ => v end
        end
      else 0
  | EmptyString => 0
  end.

(** The longest prefix of [s] that is an unsigned decimal literal:
    Infinity, or digits with an optional fraction and an optional
    exponent; NaN when there is none. *)
Definition unsigned_literal (neg : bool) (s : string) : number :=
  if prefix "Infinity" s
  then (if neg then PrimFloat.neg_infinity else PrimFloat.infinity)
  else
    let '(int, ni, rest) := digits s 0 in
    match rest with
    | String "."%char r =>
        let '(m, nf, rest') := digits r int in
        match ni, nf with
        | O, O => NaN
        | _, _ => of_decimal neg m (exponent rest' - Z.of_nat nf)
        end
    | _ =>
        match ni with
        | O => NaN
        | _ => of_decimal neg int (exponent rest)
        end
    end.

(** [parseFloat] of a string: leading white space, an optional sign, then
    the longest decimal literal. *)
Definition parse_number (s : string) : number :=
  match skip_spaces s with
  | String "-"%char r => unsigned_literal true r
  | String "+"%char r => unsigned_literal false r
  | r => unsigned_literal false r
  end.

(** [parseFloat(v)]: the argument is converted to a string and parsed.  A
    number comes back as it is, a negative zero as zero (its string is
    "0"); undefined, null and booleans give NaN. *)
Definition parseFloat (v : jsval) : number :=
  match v with
  | JNum n => if num_eq n (Fin 0) then Fin 0 else n
  | JStr s => parse_number s
  | _ => NaN
  end.

(** [n.toString()] for a non-negative integer. *)
Definition toString (n : nat) : string :=
  NilEmpty.string_of_uint (Nat.to_uint n).

(** ** Generic array operations *)

Section Arrays.
Context {A : Type}.

(** In-place mutation of the object returned by [arr.find(p)]. *)
Fixpoint update_first (p : A -> bool) (f : A -> A) (l : list A) : list A :=
  match l with
  | [] => []
  | x :: r => if p x then f x :: r else x :: update_first p f r
  end.

(** [arr.splice(arr.findIndex(p), 1)] when the index is not -1. *)
Fixpoint remove_first (p : A -> bool) (l : list A) : list A :=
  match l with
  | [] => []
  | x :: r => if p x then r else x :: remove_first p r
  end.
End Arrays.

(** [s.split(c)] for a one-character separator. *)
Fixpoint split (c : ascii) (s : string) : list string :=
  match s with
  | EmptyString => [EmptyString]
  | String a r =>
      if Ascii.eqb a c then EmptyString :: split c r
      else match split c r with
           | [] => [String a EmptyString]
           | h :: t => String a h :: t
           end
  end.

(** [s.replace(pat, '')]: the first occurrence of [pat] is removed. *)
Fixpoint remove_substring (pat s : string) : string :=
  if prefix pat s
  then substring (String.length pat) (String.length s - String.length pat)%nat s
  else match s with
       | EmptyString => EmptyString
       | String c r => String c (remove_substring pat r)
       end.

(** ** Records of the store *)

Module User.
Record t := mk {
  id : string;
  username : jsval;
  email : jsval;
  password : jsval;
  role : jsval;
  wallet : number;
  verificationLevel : string;
  createdAt : Z
}.

Definition set_wallet (w : number) (u : t) : t :=
  mk (id u) (username u) (email u) (password u) (role u) w
     (verificationLevel u) (createdAt u).
End User.

Module Gig.
Record t := mk {
  id : string;
  sellerId : string;
  title : jsval;
  description : jsval;
  price : number;
  category : jsval;
  createdAt : Z
}.
End Gig.

Record message := {
  senderId : string;
  text : jsval;
  timestamp : Z
}.

Inductive order_status := in_progress | completed.
Inductive dispute_status := open | resolved.

Module Order.
Record t := mk {
  id : string;
  buyerId : string;
  sellerId : string;
  gigId : string;
  amount : number;
  status : order_status;
  createdAt : Z;
  escrow : number;
  completedAt : option Z;
  messages : option (list message)
}.

Definition set_status (s : order_status) (o : t) : t :=
  mk (id o) (buyerId o) (sellerId o) (gigId o) (amount o) s (createdAt o)
     (escrow o) (completedAt o) (messages o).
Definition set_escrow (e : number) (o : t) : t :=
  mk (id o) (buyerId o) (sellerId o) (gigId o) (amount o) (status o)
     (createdAt o) e (completedAt o) (messages o).
Definition set_completedAt (c : option Z) (o : t) : t :=
  mk (id o) (buyerId o) (sellerId o) (gigId o) (amount o) (status o)
     (createdAt o) (escrow o) c (messages o).
Definition set_messages (m : option (list message)) (o : t) : t :=
  mk (id o) (buyerId o) (sellerId o) (gigId o) (amount o) (status o)
     (createdAt o) (escrow o) (completedAt o) m.
End Order.

Module Dispute.
Record t := mk {
  id : string;
  orderId : jsval;
  initiatorId : string;
  reason : jsval;
  status : dispute_status;
  resolution : jsval;
  createdAt : Z;
  resolvedAt : option Z
}.
End Dispute.

(** ** Server state, requests and responses *)

Record state := mkState {
  users : list User.t;
  gigs : list Gig.t;
  orders : list Order.t;
  disputes : list Dispute.t;
  tokenStore : list (string * string)
}.

Definition set_users (us : list User.t) (st : state) : state :=
  mkState us (gigs st) (orders st) (disputes st) (tokenStore st).
Definition set_gigs (gs : list Gig.t) (st : state) : state :=
  mkState (users st) gs (orders st) (disputes st) (tokenStore st).
Definition set_orders (os : list Order.t) (st : state) : state :=
  mkState (users st) (gigs st) os (disputes st) (tokenStore st).
Definition set_disputes (ds : list Dispute.t) (st : state) : state :=
  mkState (users st) (gigs st) (orders st) ds (tokenStore st).
Definition set_tokenStore (ts : list (string * string)) (st : state) : state :=
  mkState (users st) (gigs st) (orders st) (disputes st) ts.

(** A parsed JSON object: its own properties, by name. *)
Definition object := list (string * jsval).

Definition field (k : string) (data : object) : jsval :=
  match find (fun kv => (fst kv =? k)%string) data with
  | Some kv => snd kv
  | None => JUndef
  end.

Record request := mkRequest {
  method : string;
  url : string;
  pathname : string;                      (* new URL(req.url, ...).pathname *)
  searchParams : list (string * string);  (* new URL(req.url, ...).searchParams *)
  authorization : option string;          (* req.headers['authorization'] *)
  body : option object;                   (* parseRequestBody: None = rejected *)
  now : Z;                                (* Date.now() *)
  fresh : string;                         (* generateToken() *)
  file_found : bool                       (* fs.readFile succeeded *)
}.

Inductive payload :=
| PNone
| PFile
| PError (error : string)
| PMessage (msg : string)
| PRegistered (userId : string)
| PLoggedIn (token : string) (role : jsval) (userId : string)
| PGigs (l : list Gig.t)
| PGig (g : Gig.t)
| POrders (l : list Order.t)
| POrder (o : Order.t)
| PMessages (l : list message)
| PDispute (d : Dispute.t)
| PUsers (l : list User.t)
| PDisputes (l : list Dispute.t)
| PUser (u : User.t).

Record response := mkResponse {
  code : Z;
  content : payload
}.

Definition sendJson (st : state) (statusCode : Z) (data : payload)
  : state * response :=
  (st, mkResponse statusCode data).

(** The [catch] branch of [handleRequest]. *)
Definition serverError (st : state) : state * response :=
  sendJson st 500 (PError "Server error").

(** ** Start-up *)

Definition is_admin (u : User.t) : bool :=
  strict_eq (User.role u) (JStr "admin").

Definition adminUser (us : list User.t) (t0 : Z) : User.t :=
  User.mk (toString (List.length us + 1)) (JStr "admin")
          (JStr "admin@bazimn.local") (JStr "admin") (JStr "admin")
          (Fin 0) "trusted" t0.

(** The module's top level: the four collections as read from disk, then
    the provisioning of an administrator when there is none. *)
Definition startup (us : list User.t) (gs : list Gig.t) (os : list Order.t)
           (ds : list Dispute.t) (t0 : Z) : state :=
  mkState (if existsb is_admin us then us else us ++ [adminUser us t0])
          gs os ds [].

(** First run: no data file exists, every collection defaults to []. *)
Definition first_run (t0 : Z) : state := startup [] [] [] [] t0.

(** ** Authentication *)

(** [tokenStore[token]]; the most recent assignment to a key comes first.
    Only the object's own keys are represented. *)
Definition lookup {V : Type} (k : string) (m : list (string * V)) : option V :=
  match find (fun kv => (fst kv =? k)%string) m with
  | Some kv => Some (snd kv)
  | None => None
  end.

(** The [userId] of a request: [null] ([None]) unless the bearer token maps
    to a user identifier. *)
Definition authenticate (st : state) (req : request) : option string :=
  let authHeader := match authorization req with Some h => h | None => "" end in
  let token := remove_substring "Bearer " authHeader in
  lookup token (tokenStore st).

(** [i === userId] for a stored identifier [i]. *)
Definition same_id (userId : option string) (i : string) : bool :=
  match userId with
  | Some u => (i =? u)%string
  | None => false
  end.

(** The predicate of [xs.find(x => x.id === v)] for a body value [v]. *)
Definition id_is (v : jsval) (i : string) : bool := strict_eq (JStr i) v.

Definition find_user (userId : option string) (us : list User.t)
  : option User.t :=
  find (fun u => same_id userId (User.id u)) us.

Definition has_role (r : string) (u : option User.t) : bool :=
  match u with
  | Some x => strict_eq (User.role x) (JStr r)
  | None => false
  end.

(** ** Public endpoints *)

Definition register (st : state) (req : request) : state * response :=
  match body req with
  | None => serverError st
  | Some data =>
      let username := field "username" data in
      let email := field "email" data in
      let password := field "password" data in
      let role := field "role" data in
      if negb (truthy username) || negb (truthy email)
         || negb (truthy password) || negb (truthy role)
      then sendJson st 400 (PError "Missing fields")
      else
        match find (fun u => strict_eq (User.email u) email) (users st) with
        | Some _ => sendJson st 400 (PError "Email already exists")
        | None =>
            let id := toString (List.length (users st) + 1) in
            let newUser :=
              User.mk id username email password role (Fin 0) "basic" (now req) in
            sendJson (set_users (users st ++ [newUser]) st) 201 (PRegistered id)
        end
  end.

Definition login (st : state) (req : request) : state * response :=
  match body req with
  | None => serverError st
  | Some data =>
      let email := field "email" data in
      let password := field "password" data in
      if negb (truthy email) || negb (truthy password)
      then sendJson st 400 (PError "Missing credentials")
      else
        match find (fun u => strict_eq (User.email u) email
                             && strict_eq (User.password u) password) (users st) with
        | None => sendJson st 401 (PError "Invalid email or password")
        | Some user =>
            let token := fresh req in
            sendJson (set_tokenStore ((token, User.id user) :: tokenStore st) st)
                     200 (PLoggedIn token (User.role user) (User.id user))
        end
  end.

Definition listGigs (st : state) : state * response :=
  sendJson st 200 (PGigs (gigs st)).

Definition createGig (st : state) (req : request) (userId : option string)
  : state * response :=
  match userId with
  | None => sendJson st 401 (PError "Unauthorized")
  | Some _ =>
      match find_user userId (users st) with
      | None => sendJson st 403 (PError "Only sellers can create gigs")
      | Some seller =>
          if negb (strict_eq (User.role seller) (JStr "seller"))
          then sendJson st 403 (PError "Only sellers can create gigs")
          else
            match body req with
            | None => serverError st
            | Some data =>
                let title := field "title" data in
                let description := field "description" data in
                let price := field "price" data in
                let category := field "category" data in
                if negb (truthy title) || negb (truthy description)
                   || negb (truthy price)
                then sendJson st 400 (PError "Missing fields")
                else
                  let id := toString (List.length (gigs st) + 1) in
                  let newGig :=
                    Gig.mk id (User.id seller) title description
                           (parseFloat price)
                           (if truthy category then category else JStr "General")
                           (now req) in
                  sendJson (set_gigs (gigs st ++ [newGig]) st) 201 (PGig newGig)
            end
      end
  end.

Definition getGig (st : state) (req : request) : state * response :=
  let parts := split "/" (url req) in
  let gigId := match nth_error parts 3 with Some s => JStr s | None => JUndef end in
  match find (fun g => id_is gigId (Gig.id g)) (gigs st) with
  | None => sendJson st 404 (PError "Gig not found")
  | Some gig => sendJson st 200 (PGig gig)
  end.

Definition listOrders (st : state) (userId : option string) : state * response :=
  match userId with
  | None => sendJson st 401 (PError "Unauthorized")
  | Some _ =>
      let userOrders :=
        filter (fun o => same_id userId (Order.buyerId o)
                         || same_id userId (Order.sellerId o)) (orders st) in
      sendJson st 200 (POrders userOrders)
  end.

Definition createOrder (st : state) (req : request) (userId : option string)
  : state * response :=
  match userId with
  | None => sendJson st 401 (PError "Unauthorized")
  | Some _ =>
      match find_user userId (users st) with
      | None => sendJson st 403 (PError "Only buyers can place orders")
      | Some buyer =>
          if negb (strict_eq (User.role buyer) (JStr "buyer"))
          then sendJson st 403 (PError "Only buyers can place orders")
          else
            match body req with
            | None => serverError st
            | Some data =>
                let gigId := field "gigId" data in
                match find (fun g => id_is gigId (Gig.id g)) (gigs st) with
                | None => sendJson st 404 (PError "Gig not found")
                | Some gig =>
                    let orderId := toString (List.length (orders st) + 1) in
                    let newOrder :=
                      Order.mk orderId (User.id buyer) (Gig.sellerId gig)
                               (Gig.id gig) (Gig.price gig) in_progress (now req)
                               (Gig.price gig) None None in
                    sendJson (set_orders (orders st ++ [newOrder]) st)
                             201 (POrder newOrder)
                end
            end
      end
  end.

(** The three assignments to the order found by [completeOrder]. *)
Definition complete (t : Z) (o : Order.t) : Order.t :=
  Order.set_escrow (Fin 0)
    (Order.set_completedAt (Some t) (Order.set_status completed o)).

(** [seller.wallet += e]. *)
Definition credit (e : number) (u : User.t) : User.t :=
  User.set_wallet (num_add (User.wallet u) e) u.

Definition completeOrder (st : state) (req : request) (userId : option string)
  : state * response :=
  match userId with
  | None => sendJson st 401 (PError "Unauthorized")
  | Some _ =>
      match body req with
      | None => serverError st
      | Some data =>
          let orderId := field "orderId" data in
          match find (fun o => id_is orderId (Order.id o)) (orders st) with
          | None => sendJson st 404 (PError "Order not found")
          | Some order =>
              if negb (same_id userId (Order.buyerId order))
                 && negb (same_id userId (Order.sellerId order))
              then sendJson st 403 (PError "Not authorized for this order")
              else
                match Order.status order with
                | completed => sendJson st 400 (PError "Order already completed")
                | in_progress =>
                    let orders' :=
                      update_first (fun o => id_is orderId (Order.id o))
                                   (complete (now req)) (orders st) in
                    let users' :=
                      update_first
                        (fun u => (User.id u =? Order.sellerId order)%string)
                        (credit (Order.escrow order)) (users st) in
                    sendJson (set_users users' (set_orders orders' st))
                             200 (POrder (complete (now req) order))
                end
          end
      end
  end.

(** [order.messages || []]. *)
Definition messages_or_empty (o : Order.t) : list message :=
  match Order.messages o with
  | Some l => l
  | None => []
  end.

Definition init_messages (o : Order.t) : Order.t :=
  Order.set_messages (Some (messages_or_empty o)) o.

Definition getMessages (st : state) (req : request) (userId : option string)
  : state * response :=
  match lookup "orderId" (searchParams req) with
  | None => sendJson st 400 (PError "orderId required")
  | Some orderId =>
      if (orderId =? "")%string
      then sendJson st 400 (PError "orderId required")
      else
        match find (fun o => (Order.id o =? orderId)%string) (orders st) with
        | None => sendJson st 404 (PError "Order not found")
        | Some order =>
            if negb (same_id userId (Order.buyerId order))
               && negb (same_id userId (Order.sellerId order))
               && negb (has_role "admin" (find_user userId (users st)))
            then sendJson st 403 (PError "Not authorised to view messages")
            else
              let orders' :=
                update_first (fun o => (Order.id o =? orderId)%string)
                             init_messages (orders st) in
              sendJson (set_orders orders' st)
                       200 (PMessages (messages_or_empty order))
        end
  end.

Definition push_message (m : message) (o : Order.t) : Order.t :=
  Order.set_messages (Some (messages_or_empty o ++ [m])%list) o.

Definition postMessage (st : state) (req : request) (userId : option string)
  : state * response :=
  match userId with
  | None => sendJson st 401 (PError "Unauthorized")
  | Some uid =>
      match body req with
      | None => serverError st
      | Some data =>
          let orderId := field "orderId" data in
          let text := field "text" data in
          if negb (truthy orderId) || negb (truthy text)
          then sendJson st 400 (PError "Missing fields")
          else
            match find (fun o => id_is orderId (Order.id o)) (orders st) with
            | None => sendJson st 404 (PError "Order not found")
            | Some order =>
                if negb (same_id userId (Order.buyerId order))
                   && negb (same_id userId (Order.sellerId order))
                   && negb (has_role "admin" (find_user userId (users st)))
                then sendJson st 403 (PError "Not authorised to send message")
                else
                  let m := Build_message uid text (now req) in
                  let orders' :=
                    update_first (fun o => id_is orderId (Order.id o))
                                 (push_message m) (orders st) in
                  sendJson (set_orders orders' st) 201 (PMessage "Message sent")
            end
      end
  end.

Definition createDispute (st : state) (req : request) (userId : option string)
  : state * response :=
  match userId with
  | None => sendJson st 401 (PError "Unauthorized")
  | Some uid =>
      match body req with
      | None => serverError st
      | Some data =>
          let orderId := field "orderId" data in
          let reason := field "reason" data in
          if negb (truthy orderId) || negb (truthy reason)
          then sendJson st 400 (PError "Missing fields")
          else
            match find (fun o => id_is orderId (Order.id o)) (orders st) with
            | None => sendJson st 404 (PError "Order not found")
            | Some order =>
                if negb (same_id userId (Order.buyerId order))
                   && negb (same_id userId (Order.sellerId order))
                then sendJson st 403 (PError "Not authorised to dispute")
                else
                  let disputeId := toString (List.length (disputes st) + 1) in
                  let newDispute :=
                    Dispute.mk disputeId orderId uid reason open JNull
                               (now req) None in
                  sendJson (set_disputes (disputes st ++ [newDispute]) st)
                           201 (PDispute newDispute)
            end
      end
  end.

(** ** Admin endpoints *)

Definition deleteGig (st : state) (req : request) : state * response :=
  match body req with
  | None => serverError st
  | Some data =>
      let gigId := field "gigId" data in
      match find (fun g => id_is gigId (Gig.id g)) (gigs st) with
      | None => sendJson st 404 (PError "Gig not found")
      | Some _ =>
          let gigs' := remove_first (fun g => id_is gigId (Gig.id g)) (gigs st) in
          sendJson (set_gigs gigs' st) 200 (PMessage "Gig deleted")
      end
  end.

Definition deleteUser (st : state) (req : request) : state * response :=
  match body req with
  | None => serverError st
  | Some data =>
      let uid := field "userId" data in
      match find (fun u => id_is uid (User.id u)) (users st) with
      | None => sendJson st 404 (PError "User not found")
      | Some removed =>
          let users' := remove_first (fun u => id_is uid (User.id u)) (users st) in
          let gigs' := filter (fun g => negb (id_is uid (Gig.sellerId g))) (gigs st) in
          let orders' :=
            filter (fun o => negb (id_is uid (Order.buyerId o))
                             && negb (id_is uid (Order.sellerId o))) (orders st) in
          sendJson (set_orders orders' (set_gigs gigs' (set_users users' st)))
                   200 (PUser removed)
      end
  end.

(** The three assignments to the dispute found by [resolveDispute]. *)
Definition resolve (resolution : jsval) (t : Z) (d : Dispute.t) : Dispute.t :=
  Dispute.mk (Dispute.id d) (Dispute.orderId d) (Dispute.initiatorId d)
             (Dispute.reason d) resolved resolution (Dispute.createdAt d)
             (Some t).

(** The two assignments to the order of a resolved dispute. *)
Definition force_complete (o : Order.t) : Order.t :=
  Order.set_status completed (Order.set_escrow (Fin 0) o).

Definition resolveDispute (st : state) (req : request) : state * response :=
  match body req with
  | None => serverError st
  | Some data =>
      let disputeId := field "disputeId" data in
      let resolution := field "resolution" data in
      let releaseToSeller := field "releaseToSeller" data in
      match find (fun d => id_is disputeId (Dispute.id d)) (disputes st) with
      | None => sendJson st 404 (PError "Dispute not found")
      | Some dispute =>
          match Dispute.status dispute with
          | resolved => sendJson st 400 (PError "Dispute already resolved")
          | open =>
              let disputes' :=
                update_first (fun d => id_is disputeId (Dispute.id d))
                             (resolve resolution (now req)) (disputes st) in
              let st1 := set_disputes disputes' st in
              let is_order := fun o => id_is (Dispute.orderId dispute) (Order.id o) in
              let st2 :=
                match find is_order (orders st) with
                | Some order =>
                    let users' :=
                      if truthy releaseToSeller
                      then update_first
                             (fun u => (User.id u =? Order.sellerId order)%string)
                             (credit (Order.escrow order)) (users st)
                      else users st in
                    set_orders (update_first is_order force_complete (orders st))
                               (set_users users' st1)
                | None => st1
                end in
              sendJson st2 200 (PDispute (resolve resolution (now req) dispute))
          end
      end
  end.

Definition admin (st : state) (req : request) (userId : option string)
  : state * response :=
  let m := method req in
  let p := pathname req in
  let isAdmin := has_role "admin" (find_user userId (users st)) in
  if negb isAdmin then sendJson st 403 (PError "Admin only")
  else if (m =? "GET")%string && (p =? "/api/adm/users")%string
  then sendJson st 200 (PUsers (users st))
  else if (m =? "GET")%string && (p =? "/api/adm/gigs")%string
  then sendJson st 200 (PGigs (gigs st))
  else if (m =? "GET")%string && (p =? "/api/adm/orders")%string
  then sendJson st 200 (POrders (orders st))
  else if (m =? "GET")%string && (p =? "/api/adm/disputes")%string
  then sendJson st 200 (PDisputes (disputes st))
  else if (m =? "POST")%string && (p =? "/api/adm/delete-gig")%string
  then deleteGig st req
  else if (m =? "POST")%string && (p =? "/api/adm/delete-user")%string
  then deleteUser st req
  else if (m =? "POST")%string && (p =? "/api/adm/resolve-dispute")%string
  then resolveDispute st req
  else sendJson st 404 (PError "Admin endpoint not found").

(** ** The router *)

Definition serveStatic (st : state) (req : request) : state * response :=
  if file_found req then (st, mkResponse 200 PFile)
  else sendJson st 404 (PError "File not found").

Definition handleRequest (st : state) (req : request) : state * response :=
  let m := method req in
  let p := pathname req in
  if (m =? "OPTIONS")%string then (st, mkResponse 200 PNone)
  else if prefix "/api" p then
    let userId := authenticate st req in
    if (m =? "POST")%string && (p =? "/api/register")%string
    then register st req
    else if (m =? "POST")%string && (p =? "/api/login")%string
    then login st req
    else if (m =? "GET")%string && (p =? "/api/gigs")%string
    then listGigs st
    else if (m =? "POST")%string && (p =? "/api/gigs")%string
    then createGig st req userId
    else if (m =? "GET")%string && prefix "/api/gigs/" p
    then getGig st req
    else if (m =? "GET")%string && (p =? "/api/orders")%string
    then listOrders st userId
    else if (m =? "POST")%string && (p =? "/api/orders")%string
    then createOrder st req userId
    else if (m =? "POST")%string && (p =? "/api/complete-order")%string
    then completeOrder st req userId
    else if (m =? "GET")%string && prefix "/api/messages" p
    then getMessages st req userId
    else if (m =? "POST")%string && (p =? "/api/messages")%string
    then postMessage st req userId
    else if (m =? "POST")%string && (p =? "/api/disputes")%string
    then createDispute st req userId
    else if prefix "/api/adm" p
    then admin st req userId
    else sendJson st 404 (PError "Not found")
  else serveStatic st req.

(** ** Executions *)

Definition step (st : state) (req : request) : state :=
  fst (handleRequest st req).

Definition run (st : state) (reqs : list request) : state :=
  fold_left step reqs st.

(** States of a server started on an empty data directory, after any
    sequence of requests each of which satisfies [P]. *)
Inductive reachable_with (P : request -> Prop) : state -> Prop :=
| reach_first_run t0 : reachable_with P (first_run t0)
| reach_step st req :
    reachable_with P st -> P req -> reachable_with P (step st req).

Definition reachable : state -> Prop := reachable_with (fun _ => True).

(** ** Scenario builders *)

Definition bearer (token : option string) : option string :=
  match token with
  | Some t => Some ("Bearer " ++ t)%string
  | None => None
  end.

(** A POST of the JSON object [data] to [path], received at time [t]. *)
Definition post (path : string) (token : option string) (data : object)
           (t : Z) : request :=
  mkRequest "POST" path path [] (bearer token) (Some data) t "" false.

(** A login; [tok] is the token the server generates for it. *)
Definition post_login (email password tok : string) (t : Z) : request :=
  mkRequest "POST" "/api/login" "/api/login" [] None
            (Some [("email", JStr email); ("password", JStr password)])
            t tok false.

Definition post_register (name email password role : string) (t : Z)
  : request :=
  post "/api/register" None
       [("username", JStr name); ("email", JStr email);
        ("password", JStr password); ("role", JStr role)] t.

(** A seller [s@x] and a buyer [b@x] register and log in (tokens "S" and
    "B"), and the administrator logs in (token "A"). *)
Definition onboarding : list request :=
  [ post_register "sam" "s@x" "pw" "seller" 1;
    post_register "bea" "b@x" "pw" "buyer" 2;
    post_login "s@x" "pw" "S" 3;
    post_login "b@x" "pw" "B" 4;
    post_login "admin@bazimn.local" "admin" "A" 5 ].

(** The seller lists a gig with the given price, the buyer orders it. *)
Definition trade (price : jsval) : list request :=
  [ post "/api/gigs" (Some "S")
         [("title", JStr "logo"); ("description", JStr "a logo");
          ("price", price)] 6;
    post "/api/orders" (Some "B") [("gigId", JStr "1")] 7 ].

Definition market (price : jsval) : state :=
  run (first_run 0) (onboarding ++ trade price).

(** ** The effect of one request on the store

    Every handler either leaves the store alone or performs one of the
    updates below.  The relation keeps what the invariants need: which
    collection changes, how, and for which kind of request. *)

Definition is_post (path : string) (req : request) : Prop :=
  method req = "POST" /\ pathname req = path.

Inductive effect (st : state) (req : request) : state -> Prop :=
| eff_none : effect st req st
| eff_register data u :
    is_post "/api/register" req ->
    body req = Some data ->
    User.role u = field "role" data ->
    User.wallet u = Fin 0 ->
    effect st req (set_users (users st ++ [u]) st)
| eff_login ts :
    effect st req (set_tokenStore ts st)
| eff_createGig data seller g :
    is_post "/api/gigs" req ->
    body req = Some data ->
    In seller (users st) ->
    Gig.sellerId g = User.id seller ->
    Gig.price g = parseFloat (field "price" data) ->
    effect st req (set_gigs (gigs st ++ [g]) st)
| eff_createOrder gig o :
    In gig (gigs st) ->
    Order.sellerId o = Gig.sellerId gig ->
    Order.amount o = Gig.price gig ->
    Order.escrow o = Gig.price gig ->
    Order.status o = in_progress ->
    effect st req (set_orders (orders st ++ [o]) st)
| eff_complete p order :
    is_post "/api/complete-order" req ->
    find p (orders st) = Some order ->
    Order.status order = in_progress ->
    effect st req
      (set_users (update_first
                    (fun u => (User.id u =? Order.sellerId order)%string)
                    (credit (Order.escrow order)) (users st))
         (set_orders (update_first p (complete (now req)) (orders st)) st))
| eff_messages p f :
    (forall o, exists m, f o = Order.set_messages m o) ->
    effect st req (set_orders (update_first p f (orders st)) st)
| eff_disputes ds :
    effect st req (set_disputes ds st)
| eff_deleteGig p :
    effect st req (set_gigs (remove_first p (gigs st)) st)
| eff_deleteUser data removed :
    is_post "/api/adm/delete-user" req ->
    body req = Some data ->
    find (fun u => id_is (field "userId" data) (User.id u)) (users st)
      = Some removed ->
    effect st req
      (set_orders
         (filter (fun o => negb (id_is (field "userId" data) (Order.buyerId o))
                           && negb (id_is (field "userId" data) (Order.sellerId o)))
                 (orders st))
         (set_gigs
            (filter (fun g => negb (id_is (field "userId" data) (Gig.sellerId g)))
                    (gigs st))
            (set_users
               (remove_first (fun u => id_is (field "userId" data) (User.id u))
                             (users st))
               st)))
| eff_resolve data p order ds :
    is_post "/api/adm/resolve-dispute" req ->
    body req = Some data ->
    find p (orders st) = Some order ->
    effect st req
      (set_orders (update_first p force_complete (orders st))
         (set_users
            (if truthy (field "releaseToSeller" data)
             then update_first
                    (fun u => (User.id u =? Order.sellerId order)%string)
                    (credit (Order.escrow order)) (users st)
             else users st)
            (set_disputes ds st))).

(** ** Invariants of the store *)

(** An order is either pending with its whole amount in escrow, or settled
    with nothing left in escrow. *)
Definition order_ok (o : Order.t) : Prop :=
  (Order.status o = in_progress /\ Order.escrow o = Order.amount o)
  \/ (Order.status o = completed /\ Order.escrow o = Fin 0).

Definition known_user (us : list User.t) (i : string) : Prop :=
  exists u, In u us /\ User.id u = i.

Record store_inv (st : state) : Prop := {
  inv_orders : forall o, In o (orders st) -> order_ok o;
  inv_order_seller : forall o, In o (orders st) -> known_user (users st) (Order.sellerId o);
  inv_gig_seller : forall g, In g (gigs st) -> known_user (users st) (Gig.sellerId g)
}.


(** [a <= b] on numbers; false as soon as one side is [NaN]. *)
Definition num_le (a b : number) : Prop :=
  PrimFloat.leb a b = true.





Definition admin_count (st : state) : nat :=
  List.length (filter is_admin (users st)).

(** The acting user is the buyer or the seller of the order. *)
Definition participant (uid : string) (o : Order.t) : Prop :=
  Order.buyerId o = uid \/ Order.sellerId o = uid.

(** The acting user's record (the first one with that identifier) has the
    role admin. *)
Definition acts_as_admin (st : state) (uid : option string) : Prop :=
  has_role "admin" (find_user uid (users st)) = true.


(** ** Scenarios *)

Definition complete_1 (t : Z) : request :=
  post "/api/complete-order" (Some "B") [("orderId", JStr "1")] t.

Definition dispute_1 (t : Z) : request :=
  post "/api/disputes" (Some "B")
       [("orderId", JStr "1"); ("reason", JStr "not delivered")] t.

Definition resolve_1 (release : bool) (t : Z) : request :=
  post "/api/adm/resolve-dispute" (Some "A")
       [("disputeId", JStr "1"); ("resolution", JStr "settled");
        ("releaseToSeller", JBool release)] t.

Definition delete_user (uid : string) (t : Z) : request :=
  post "/api/adm/delete-user" (Some "A") [("userId", JStr uid)] t.

(** A gig priced "0" ordered twice by the same buyer. *)
Definition free_gig_twice : state :=
  run (market (JStr "0")) [post "/api/orders" (Some "B") [("gigId", JStr "1")] 8].

(** The market with an order of 50 under an open dispute. *)
Definition disputed : state := run (market (JNum (Fin 50))) [dispute_1 8].

(** The same, after the administrator deleted the buyer (user "3"), which
    removes the order but not the dispute. *)
Definition orphaned : state := run disputed [delete_user "3" 9].

(** The market after the buyer completed the order of 50. *)
Definition settled : state := run (market (JNum (Fin 50))) [complete_1 8].

(** The disputed market after the dispute was resolved in favour of the
    seller. *)
Definition resolved_once : state := run disputed [resolve_1 true 9].

(** A third user, neither buyer nor seller of order "1", registers and
    logs in (token "C"). *)
Definition with_stranger : state :=
  run (market (JNum (Fin 50)))
      [post_register "cy" "c@x" "pw" "buyer" 8; post_login "c@x" "pw" "C" 9].

Definition get_messages_1 (token : string) (t : Z) : request :=
  mkRequest "GET" "/api/messages?orderId=1" "/api/messages"
            [("orderId", "1")] (bearer (Some token)) None t "" false.

Definition post_message_1 (token : string) (t : Z) : request :=
  post "/api/messages" (Some token)
       [("orderId", JStr "1"); ("text", JStr "hello")] t.


Definition order_1 : Order.t :=
  Order.mk "1" "3" "2" "1" (Fin 50) in_progress 7 (Fin 50) None None.

(** The administrator deletes the seller (user "2"), then a new user
    registers. *)
Definition renumbered : state :=
  run (first_run 0)
      (onboarding ++ [delete_user "2" 6;
                      post_register "zed" "z@x" "pw" "buyer" 7]).


(** A visitor registers with the role admin. *)
Definition two_admins : state :=
  run (first_run 0) [post_register "eve" "e@x" "pw" "admin" 1].

(** Case analysis on a test of a handler; the failing branch leaves the
    store alone. *)
Ltac branch x := destruct x eqn:?; simpl; try apply eff_none.

(** ** Classes of requests *)

(** The endpoints that answer 401 to a request without a known token. *)
Definition needs_login (req : request) : Prop :=
  is_post "/api/gigs" req \/ is_post "/api/orders" req
  \/ is_post "/api/complete-order" req \/ is_post "/api/messages" req
  \/ is_post "/api/disputes" req
  \/ (method req = "GET" /\ pathname req = "/api/orders").

(** An order as a GET request may leave it: untouched, or with an absent
    message array replaced by the empty one. *)
Definition same_or_initialised (o o' : Order.t) : Prop :=
  o' = o \/ o' = init_messages o.

(** Case analysis on every test of an unfolded handler. *)
Ltac split_tests :=
  cbv zeta;
  repeat match goal with
         | |- context [match ?x with _ => _ end] => destruct x eqn:?
         end.

(** Every failing branch of an unfolded handler returns the store it was
    given. *)
Ltac no_change_on_error :=
  unfold sendJson, serverError; split_tests; simpl; intros;
  try reflexivity; lia.

(** ** Roles behind identifiers *)

(** The user record that requests acting as [i] are checked against, the
    first one with identifier [i], has role [r]. *)
Definition resolves_to (r : string) (us : list User.t) (i : string) : Prop :=
  has_role r (find_user (Some i) us) = true.

Record role_inv (st : state) : Prop := {
  inv_gig_owner :
    forall g, In g (gigs st) -> resolves_to "seller" (users st) (Gig.sellerId g);
  inv_order_buyer :
    forall o, In o (orders st) -> resolves_to "buyer" (users st) (Order.buyerId o);
  inv_order_owner :
    forall o, In o (orders st) -> resolves_to "seller" (users st) (Order.sellerId o)
}.

(** ** Numbering of identifiers *)

(** The identifiers are "1", "2", ..., in this order. *)
Definition numbered (ids : list string) : Prop :=
  ids = map toString (seq 1 (List.length ids)).

(** A request that is not one of the two admin deletions. *)
Definition no_delete (req : request) : Prop :=
  ~ is_post "/api/adm/delete-gig" req /\ ~ is_post "/api/adm/delete-user" req.

(** ** Growth of an order *)

(** [o'] is [o] at a later time: the fields written at creation are the
    same and the message log has only grown at its end. *)
Definition extends (o o' : Order.t) : Prop :=
  Order.id o' = Order.id o
  /\ Order.buyerId o' = Order.buyerId o
  /\ Order.sellerId o' = Order.sellerId o
  /\ Order.gigId o' = Order.gigId o
  /\ Order.amount o' = Order.amount o
  /\ Order.createdAt o' = Order.createdAt o
  /\ exists later, messages_or_empty o' = messages_or_empty o ++ later.

(** The character [c] occurs in [s]. *)
Fixpoint occurs (c : ascii) (s : string) : bool :=
  match s with
  | EmptyString => false
  | String a r => Ascii.eqb a c || occurs c r
  end.

(** A GET of the raw URL [u] whose path is [p]. *)
Definition get (u p : string) (token : option string) (t : Z) : request :=
  mkRequest "GET" u p [] (bearer token) None t "" false.

(** The settled market with a dispute filed after completion. *)
Definition settled_disputed : state := run settled [dispute_1 9].

Definition delete_gig (gid : string) (t : Z) : request :=
  post "/api/adm/delete-gig" (Some "A") [("gigId", JStr gid)] t.

(** * Properties *)

(** ** Arrays *)

Section ArrayFacts.
Context {A : Type}.
Variables (p : A -> bool) (f : A -> A).

Lemma update_first_found (l : list A) (x : A) :
  find p l = Some x ->
  exists l1 l2,
    l = l1 ++ x :: l2
    /\ (forall y, In y l1 -> p y = false)
    /\ update_first p f l = l1 ++ f x :: l2.
Proof.
  induction l as [|a r IH]; simpl; [discriminate|].
  destruct (p a) eqn:E.
  - intros [= ->]. exists [], r. simpl. intuition.
  - intros H. destruct (IH H) as (l1 & l2 & -> & Hl1 & ->).
    exists (a :: l1), l2. simpl. repeat split; trivial.
    intros y [<-|Hy]; auto.
Qed.

Lemma update_first_In (l : list A) (y : A) :
  In y (update_first p f l) ->
  In y l \/ exists x, find p l = Some x /\ In x l /\ y = f x.
Proof.
  induction l as [|a r IH]; simpl; [tauto|].
  destruct (p a) eqn:E; simpl.
  - intros [<-|H]; [right; exists a|]; auto.
  - intros [<-|H]; auto.
    destruct (IH H) as [?|(x & ? & ? & ?)]; auto.
    right; exists x; auto.
Qed.

Lemma update_first_map {B : Type} (g : A -> B) (l : list A) :
  (forall x, g (f x) = g x) ->
  map g (update_first p f l) = map g l.
Proof.
  intros Hg. induction l as [|a r IH]; simpl; [reflexivity|].
  destruct (p a); simpl; congruence.
Qed.

End ArrayFacts.

Section RemoveFacts.
Context {A : Type}.
Variable p : A -> bool.

Lemma remove_first_In (l : list A) (y : A) :
  In y (remove_first p l) -> In y l.
Proof.
  induction l as [|a r IH]; simpl; [tauto|].
  destruct (p a); simpl; intuition.
Qed.

Lemma remove_first_keeps (l : list A) (y : A) :
  In y l -> p y = false -> In y (remove_first p l).
Proof.
  induction l as [|a r IH]; simpl; [tauto|].
  intros [->|H] Hy.
  - rewrite Hy. now left.
  - destruct (p a); simpl; auto.
Qed.

Lemma remove_first_found (l : list A) (x : A) :
  find p l = Some x ->
  exists l1 l2,
    l = l1 ++ x :: l2
    /\ (forall y, In y l1 -> p y = false)
    /\ remove_first p l = l1 ++ l2.
Proof.
  induction l as [|a r IH]; simpl; [discriminate|].
  destruct (p a) eqn:E.
  - intros [= ->]. exists [], r. simpl. intuition.
  - intros H. destruct (IH H) as (l1 & l2 & -> & Hl1 & ->).
    exists (a :: l1), l2. simpl. repeat split; trivial.
    intros y [<-|Hy]; auto.
Qed.
End RemoveFacts.

Lemma find_In {A : Type} (p : A -> bool) (l : list A) (x : A) :
  find p l = Some x -> In x l /\ p x = true.
Proof. apply find_some. Qed.

(** ** Routing *)

Lemma is_post_test (path : string) (req : request) :
  ((method req =? "POST")%string && (pathname req =? path)%string) = true ->
  is_post path req.
Proof.
  intros H. apply andb_true_iff in H as [Hm Hp].
  split; now apply String.eqb_eq.
Qed.

Lemma route_completeOrder st req :
  is_post "/api/complete-order" req ->
  handleRequest st req = completeOrder st req (authenticate st req).
Proof. intros [Hm Hp]. unfold handleRequest. now rewrite Hm, Hp. Qed.

Lemma route_postMessage st req :
  is_post "/api/messages" req ->
  handleRequest st req = postMessage st req (authenticate st req).
Proof. intros [Hm Hp]. unfold handleRequest. now rewrite Hm, Hp. Qed.

Lemma route_createDispute st req :
  is_post "/api/disputes" req ->
  handleRequest st req = createDispute st req (authenticate st req).
Proof. intros [Hm Hp]. unfold handleRequest. now rewrite Hm, Hp. Qed.

Lemma prefix_split s p :
  prefix s p = true -> exists r, p = (s ++ r)%string.
Proof.
  revert p. induction s as [|a s IH]; intros p.
  - intros _. now exists p.
  - destruct p as [|b p]; simpl; [discriminate|].
    destruct (ascii_dec a b) as [->|]; [|discriminate].
    intros H. destruct (IH _ H) as [r ->]. now exists r.
Qed.

Lemma route_getMessages st req :
  method req = "GET" -> prefix "/api/messages" (pathname req) = true ->
  handleRequest st req = getMessages st req (authenticate st req).
Proof.
  intros Hm Hp. apply prefix_split in Hp as [r Hp].
  unfold handleRequest. rewrite Hm, Hp. cbn. now destruct r.
Qed.


Lemma route_resolveDispute st req :
  is_post "/api/adm/resolve-dispute" req ->
  handleRequest st req =
    if has_role "admin" (find_user (authenticate st req) (users st))
    then resolveDispute st req
    else sendJson st 403 (PError "Admin only").
Proof.
  intros [Hm Hp]. unfold handleRequest, admin. rewrite Hm, Hp. simpl.
  now destruct (has_role _ _).
Qed.

(** ** Every request has one of the listed effects *)

Lemma register_effect st req :
  is_post "/api/register" req -> effect st req (fst (register st req)).
Proof.
  intros Hp. unfold register.
  destruct (body req) as [data|] eqn:Hb; simpl; [|apply eff_none].
  match goal with |- context [if ?c then _ else _] => branch c end.
  match goal with |- context [find ?p ?l] => branch (find p l) end.
  eapply eff_register; eauto.
Qed.

Lemma login_effect st req : effect st req (fst (login st req)).
Proof.
  unfold login. branch (body req).
  match goal with |- context [if ?c then _ else _] => branch c end.
  match goal with |- context [find ?p ?l] => branch (find p l) end.
  apply eff_login.
Qed.

Lemma createGig_effect st req uid :
  is_post "/api/gigs" req -> effect st req (fst (createGig st req uid)).
Proof.
  intros Hp. unfold createGig. branch uid.
  destruct (find_user _ _) as [seller|] eqn:Hs; simpl; [|apply eff_none].
  branch (negb (strict_eq (User.role seller) (JStr "seller"))).
  destruct (body req) as [data|] eqn:Hb; simpl; [|apply eff_none].
  match goal with |- context [if ?c then _ else _] => branch c end.
  eapply eff_createGig with (seller := seller); eauto.
  now apply find_In in Hs.
Qed.

Lemma createOrder_effect st req uid :
  effect st req (fst (createOrder st req uid)).
Proof.
  unfold createOrder. branch uid.
  destruct (find_user _ _) as [buyer|] eqn:Hs; simpl; [|apply eff_none].
  branch (negb (strict_eq (User.role buyer) (JStr "buyer"))).
  branch (body req).
  match goal with |- context [find ?p ?l] =>
    destruct (find p l) as [gig|] eqn:Hg end; simpl; [|apply eff_none].
  eapply eff_createOrder with (gig := gig); eauto.
  now apply find_In in Hg.
Qed.

Lemma completeOrder_effect st req uid :
  is_post "/api/complete-order" req ->
  effect st req (fst (completeOrder st req uid)).
Proof.
  intros Hp. unfold completeOrder. branch uid. branch (body req).
  match goal with |- context [find ?p ?l] =>
    destruct (find p l) as [order|] eqn:Ho end; simpl; [|apply eff_none].
  match goal with |- context [if ?c then _ else _] => branch c end.
  branch (Order.status order).
  now apply eff_complete.
Qed.

Lemma getMessages_effect st req uid :
  effect st req (fst (getMessages st req uid)).
Proof.
  unfold getMessages.
  destruct (lookup "orderId" (searchParams req)) as [oid|]; simpl;
    [|apply eff_none].
  branch (oid =? "")%string.
  match goal with |- context [find ?p ?l] => branch (find p l) end.
  match goal with |- context [if ?c then _ else _] => branch c end.
  apply eff_messages. intros x. eexists. reflexivity.
Qed.

Lemma postMessage_effect st req uid :
  effect st req (fst (postMessage st req uid)).
Proof.
  unfold postMessage. branch uid. branch (body req).
  match goal with |- context [if ?c then _ else _] => branch c end.
  match goal with |- context [find ?p ?l] => branch (find p l) end.
  match goal with |- context [if ?c then _ else _] => branch c end.
  apply eff_messages. intros x. eexists. reflexivity.
Qed.

Lemma createDispute_effect st req uid :
  effect st req (fst (createDispute st req uid)).
Proof.
  unfold createDispute. branch uid. branch (body req).
  match goal with |- context [if ?c then _ else _] => branch c end.
  match goal with |- context [find ?p ?l] => branch (find p l) end.
  match goal with |- context [if ?c then _ else _] => branch c end.
  apply eff_disputes.
Qed.

Lemma deleteGig_effect st req : effect st req (fst (deleteGig st req)).
Proof.
  unfold deleteGig. branch (body req).
  match goal with |- context [find ?p ?l] => branch (find p l) end.
  apply eff_deleteGig.
Qed.

Lemma deleteUser_effect st req :
  is_post "/api/adm/delete-user" req ->
  effect st req (fst (deleteUser st req)).
Proof.
  intros Hp. unfold deleteUser.
  destruct (body req) as [data|] eqn:Hb; simpl; [|apply eff_none].
  match goal with |- context [find ?p ?l] =>
    destruct (find p l) as [removed|] eqn:Hf end; simpl; [|apply eff_none].
  now apply eff_deleteUser with (removed := removed).
Qed.

Lemma resolveDispute_effect st req :
  is_post "/api/adm/resolve-dispute" req ->
  effect st req (fst (resolveDispute st req)).
Proof.
  intros Hp. unfold resolveDispute.
  destruct (body req) as [data|] eqn:Hb; simpl; [|apply eff_none].
  match goal with |- context [find ?p ?l] =>
    destruct (find p l) as [d|] end; simpl; [|apply eff_none].
  branch (Dispute.status d).
  match goal with |- context [find ?p ?l] =>
    destruct (find p l) as [order|] eqn:Ho end.
  - now apply eff_resolve with (order := order).
  - apply eff_disputes.
Qed.

Lemma admin_effect st req uid : effect st req (fst (admin st req uid)).
Proof.
  unfold admin.
  repeat match goal with
         | |- context [if ?c then _ else _] => branch c
         end.
  - apply deleteGig_effect.
  - apply deleteUser_effect. now apply is_post_test.
  - apply resolveDispute_effect. now apply is_post_test.
Qed.

Theorem handleRequest_effect st req : effect st req (step st req).
Proof.
  unfold step, handleRequest.
  repeat match goal with
         | |- context [if ?c then _ else _] => branch c
         end.
  - apply register_effect. now apply is_post_test.
  - apply login_effect.
  - apply createGig_effect. now apply is_post_test.
  - unfold getGig.
    match goal with |- context [find ?p ?l] => branch (find p l) end.
  - unfold listOrders. branch (authenticate st req).
  - apply createOrder_effect.
  - apply completeOrder_effect. now apply is_post_test.
  - apply getMessages_effect.
  - apply postMessage_effect.
  - apply createDispute_effect.
  - apply admin_effect.
  - unfold serveStatic. branch (file_found req).
Qed.

(** ** The store invariant holds in every reachable state *)

Lemma known_user_ids us us' i :
  map User.id us' = map User.id us ->
  known_user us i -> known_user us' i.
Proof.
  intros Hm (u & Hu & Hi).
  assert (Hin : In i (map User.id us')).
  { rewrite Hm, <- Hi. now apply in_map. }
  apply in_map_iff in Hin as (u' & ? & ?). now exists u'.
Qed.

Lemma known_user_incl us us' i :
  incl us us' -> known_user us i -> known_user us' i.
Proof. intros Hincl (u & Hu & Hi). exists u. auto. Qed.

Lemma credit_ids p e us :
  map User.id (update_first p (credit e) us) = map User.id us.
Proof. now apply update_first_map. Qed.

Lemma order_ok_complete t o : order_ok (complete t o).
Proof. right. split; reflexivity. Qed.

Lemma order_ok_force_complete o : order_ok (force_complete o).
Proof. right. split; reflexivity. Qed.

Lemma order_ok_set_messages m o : order_ok o -> order_ok (Order.set_messages m o).
Proof. intros H. exact H. Qed.

(** What a member of an updated order array is. *)
Lemma updated_order (p : Order.t -> bool) f os o' :
  In o' (update_first p f os) ->
  In o' os \/ exists o, In o os /\ o' = f o.
Proof.
  intros H. apply update_first_In in H as [?|(o & _ & ? & ?)]; eauto.
Qed.

Lemma store_inv_effect st req st' :
  store_inv st -> effect st req st' -> store_inv st'.
Proof.
  intros [Ho Hos Hgs] E.
  destruct E as [ | data u _ _ _ _ | ts | data seller g _ _ Hin Hsid _
                  | gig o Hin Hsid Ham Hes Hst | p order _ Hf Hst
                  | p f Hfm | ds | p | data removed _ _ _
                  | data p order ds _ _ Hf ].
  - now split.
  - split; simpl; auto.
    + intros o Hin. eapply known_user_incl; [|apply Hos; exact Hin].
      now apply incl_appl, incl_refl.
    + intros g Hin. eapply known_user_incl; [|apply Hgs; exact Hin].
      now apply incl_appl, incl_refl.
  - now split.
  - split; simpl; auto.
    intros g' Hg'. apply in_app_or in Hg' as [Hg'|[<-|[]]].
    + now apply Hgs.
    + exists seller. auto.
  - split; simpl; auto.
    + intros o' Ho'. apply in_app_or in Ho' as [Ho'|[<-|[]]]; auto.
      left. split; congruence.
    + intros o' Ho'. apply in_app_or in Ho' as [Ho'|[<-|[]]].
      * now apply Hos.
      * rewrite Hsid. now apply Hgs.
  - split; simpl.
    + intros o' Ho'. apply updated_order in Ho' as [?|(o & ? & ->)]; auto.
      apply order_ok_complete.
    + intros o' Ho'.
      apply known_user_ids with (us := users st); [apply credit_ids|].
      apply updated_order in Ho' as [?|(o & ? & Eo)]; [now apply Hos|].
      subst o'. now apply (Hos o).
    + intros g Hg.
      apply known_user_ids with (us := users st); [apply credit_ids|]. now apply Hgs.
  - split; simpl; auto.
    + intros o' Ho'. apply updated_order in Ho' as [?|(o & ? & ->)]; auto.
      destruct (Hfm o) as [m ->]. apply order_ok_set_messages. auto.
    + intros o' Ho'.
      apply updated_order in Ho' as [?|(o & ? & ->)]; auto.
      destruct (Hfm o) as [m ->]. now apply (Hos o).
  - now split.
  - split; simpl; auto.
    intros g Hg. apply remove_first_In in Hg. now apply Hgs.
  - split; simpl.
    + intros o Hin. apply filter_In in Hin as [Hin _]. auto.
    + intros o Hin. apply filter_In in Hin as [Hin Hk].
      apply andb_true_iff in Hk as [_ Hk]. apply negb_true_iff in Hk.
      destruct (Hos o Hin) as (u & Hu & Hi). exists u. split; trivial.
      apply remove_first_keeps; trivial. now rewrite Hi.
    + intros g Hin. apply filter_In in Hin as [Hin Hk].
      apply negb_true_iff in Hk.
      destruct (Hgs g Hin) as (u & Hu & Hi). exists u. split; trivial.
      apply remove_first_keeps; trivial. now rewrite Hi.
  - assert (Hids : map User.id
                     (if truthy (field "releaseToSeller" data)
                      then update_first
                             (fun u => (User.id u =? Order.sellerId order)%string)
                             (credit (Order.escrow order)) (users st)
                      else users st) = map User.id (users st)).
    { destruct (truthy _); [apply credit_ids|reflexivity]. }
    split; simpl.
    + intros o' Ho'. apply updated_order in Ho' as [?|(o & ? & ->)]; auto.
      apply order_ok_force_complete.
    + intros o' Ho'. apply known_user_ids with (us := users st); [exact Hids|].
      apply updated_order in Ho' as [?|(o & ? & Eo)]; [now apply Hos|].
      subst o'. now apply (Hos o).
    + intros g Hg. apply known_user_ids with (us := users st); [exact Hids|].
      now apply Hgs.
Qed.

Lemma store_inv_first_run t0 : store_inv (first_run t0).
Proof. split; simpl; intros ? []. Qed.

Lemma reachable_store_inv P st : reachable_with P st -> store_inv st.
Proof.
  induction 1 as [t0 | st req _ IH _].
  - apply store_inv_first_run.
  - eapply store_inv_effect; [exact IH | apply handleRequest_effect].
Qed.

Lemma reachable_run P st reqs :
  reachable_with P st -> Forall P reqs -> reachable_with P (run st reqs).
Proof.
  intros Hst Hall. revert st Hst.
  induction Hall as [|req reqs Hreq _ IH]; intros st Hst; simpl; [exact Hst|].
  apply IH. now apply reach_step.
Qed.

Lemma reachable_any st reqs : reachable st -> reachable (run st reqs).
Proof.
  intros H. apply reachable_run; [exact H|].
  apply Forall_forall. trivial.
Qed.

(** ** Identifiers and look-ups *)



Lemma same_id_participant uid o :
  participant uid o ->
  negb (same_id (Some uid) (Order.buyerId o))
  && negb (same_id (Some uid) (Order.sellerId o)) = false.
Proof.
  intros [H|H]; simpl; rewrite H, String.eqb_refl; simpl; trivial.
  apply andb_false_r.
Qed.



(** ** Complete-order *)


Lemma market_reachable price : reachable (market price).
Proof. unfold market. apply reachable_any. apply reach_first_run. Qed.


(** ** Escrow and status *)

(** C1, amended.  In every store reached from a first run, and so right
    after every Complete-order or Resolve-dispute call, an order whose
    status is completed has escrow 0; and for an order whose amount is not
    0, status completed is equivalent to escrow 0. *)
Theorem completed_iff_escrow_released st req o :
  reachable st ->
  In o (orders (step st req)) ->
  (Order.status o = completed -> Order.escrow o = Fin 0)
  /\ (Order.amount o <> Fin 0 ->
      (Order.status o = completed <-> Order.escrow o = Fin 0)).
Proof.
  intros Hr Hin.
  assert (Hinv : store_inv (step st req)).
  { eapply store_inv_effect;
      [apply (reachable_store_inv _ _ Hr) | apply handleRequest_effect]. }
  destruct (inv_orders _ Hinv o Hin) as [[Hs He]|[Hs He]].
  - split.
    + rewrite Hs. discriminate.
    + intros Ha. split.
      * rewrite Hs. discriminate.
      * intros H0. congruence.
  - split; [auto|]. intros _. split; auto.
Qed.

Lemma completed_iff_escrow_released_witness :
  (Order.status (Order.mk "1" "3" "2" "1" (Fin 50) completed 7 (Fin 0)
                          (Some 8) None) = completed <->
   Order.escrow (Order.mk "1" "3" "2" "1" (Fin 50) completed 7 (Fin 0)
                          (Some 8) None) = Fin 0).
Proof.
  refine (proj2 (completed_iff_escrow_released
                   (market (JNum (Fin 50))) (complete_1 8)
                   (Order.mk "1" "3" "2" "1" (Fin 50) completed 7 (Fin 0)
                             (Some 8) None) _ _) _).
  - apply market_reachable.
  - left. reflexivity.
  - simpl. discriminate.
Defined.

(** C1 as stated fails: a gig whose price is the string "0" passes the
    missing-field test, so its orders start in_progress with escrow 0, and
    one of them is still so after a successful Complete-order call on the
    other. *)
Lemma zero_escrow_order_in_progress :
  code (snd (handleRequest free_gig_twice (complete_1 9))) = 200
  /\ ~ (forall o, In o (orders (step free_gig_twice (complete_1 9))) ->
                  (Order.status o = completed <-> Order.escrow o = Fin 0)).
Proof.
  split; [reflexivity|].
  intros H.
  specialize (H (Order.mk "2" "3" "2" "1" (Fin 0) in_progress 8 (Fin 0) None None)).
  assert (Hc : in_progress = completed) by (apply H; [right; left|]; reflexivity).
  discriminate Hc.
Qed.

(** ** Resolve-dispute *)

Lemma admin_resolveDispute st req :
  is_post "/api/adm/resolve-dispute" req ->
  acts_as_admin st (authenticate st req) ->
  handleRequest st req = resolveDispute st req.
Proof.
  intros Hp Ha. rewrite (route_resolveDispute _ _ Hp).
  unfold acts_as_admin in Ha. now rewrite Ha.
Qed.

Lemma resolveDispute_resolved st req data dispute :
  body req = Some data ->
  find (fun d => id_is (field "disputeId" data) (Dispute.id d)) (disputes st)
    = Some dispute ->
  Dispute.status dispute = resolved ->
  resolveDispute st req
  = (st, mkResponse 400 (PError "Dispute already resolved")).
Proof.
  intros Hb Hf Hs. unfold resolveDispute. now rewrite Hb, Hf, Hs.
Qed.


Lemma disputed_reachable : reachable disputed.
Proof. unfold disputed. apply reachable_any, market_reachable. Qed.


(** C5, amended.  For an administrator, Resolve-dispute answers 404 and
    changes nothing when no dispute has the requested identifier, answers
    400 and changes nothing when the dispute is not open, and, when the
    dispute is open but the order it refers to no longer exists, answers
    200 and marks the dispute resolved with the resolution text and the
    time of the call, changing nothing else in the store. *)
Theorem resolve_dispute_validations st req data :
  is_post "/api/adm/resolve-dispute" req ->
  acts_as_admin st (authenticate st req) ->
  body req = Some data ->
  (find (fun d => id_is (field "disputeId" data) (Dispute.id d)) (disputes st)
     = None ->
   handleRequest st req = (st, mkResponse 404 (PError "Dispute not found")))
  /\ (forall dispute,
        find (fun d => id_is (field "disputeId" data) (Dispute.id d))
             (disputes st) = Some dispute ->
        Dispute.status dispute = resolved ->
        handleRequest st req
        = (st, mkResponse 400 (PError "Dispute already resolved")))
  /\ (forall dispute,
        find (fun d => id_is (field "disputeId" data) (Dispute.id d))
             (disputes st) = Some dispute ->
        Dispute.status dispute = open ->
        find (fun o => id_is (Dispute.orderId dispute) (Order.id o))
             (orders st) = None ->
        exists d1 d2,
          disputes st = d1 ++ dispute :: d2
          /\ handleRequest st req
             = (set_disputes
                  (d1 ++ Dispute.mk (Dispute.id dispute)
                                    (Dispute.orderId dispute)
                                    (Dispute.initiatorId dispute)
                                    (Dispute.reason dispute) resolved
                                    (field "resolution" data)
                                    (Dispute.createdAt dispute)
                                    (Some (now req)) :: d2) st,
                mkResponse 200
                  (PDispute
                     (Dispute.mk (Dispute.id dispute)
                                 (Dispute.orderId dispute)
                                 (Dispute.initiatorId dispute)
                                 (Dispute.reason dispute) resolved
                                 (field "resolution" data)
                                 (Dispute.createdAt dispute)
                                 (Some (now req)))))).
Proof.
  intros Hp Ha Hb. rewrite (admin_resolveDispute _ _ Hp Ha).
  split; [|split].
  - intros Hf. unfold resolveDispute. now rewrite Hb, Hf.
  - intros dispute Hf Hs. eapply resolveDispute_resolved; eauto.
  - intros dispute Hf Hs Ho.
    destruct (update_first_found _ (resolve (field "resolution" data) (now req))
                                 _ _ Hf) as (d1 & d2 & E & _ & Hu).
    exists d1, d2. split; trivial.
    unfold resolveDispute. rewrite Hb, Hf, Hs, Ho, Hu. reflexivity.
Qed.

Lemma resolve_dispute_validations_witness :
  code (snd (handleRequest orphaned (resolve_1 false 10))) = 200
  /\ users (step orphaned (resolve_1 false 10)) = users orphaned
  /\ orders (step orphaned (resolve_1 false 10)) = orders orphaned.
Proof.
  destruct (resolve_dispute_validations
              orphaned (resolve_1 false 10)
              [("disputeId", JStr "1"); ("resolution", JStr "settled");
               ("releaseToSeller", JBool false)]
              (conj eq_refl eq_refl) eq_refl eq_refl) as (_ & _ & H).
  destruct (H (Dispute.mk "1" (JStr "1") "3" (JStr "not delivered") open JNull
                          8 None) eq_refl eq_refl eq_refl)
    as (d1 & d2 & _ & Hr).
  unfold step. rewrite Hr. repeat split.
Defined.

(** C5 as stated fails: after the buyer of a disputed order is deleted,
    the order is gone and the dispute is still open; resolving it answers
    200, not 404, and the dispute becomes resolved. *)
Lemma resolve_orphan_dispute_succeeds :
  orders orphaned = []
  /\ map Dispute.status (disputes orphaned) = [open]
  /\ code (snd (handleRequest orphaned (resolve_1 false 10))) = 200
  /\ map Dispute.status (disputes (step orphaned (resolve_1 false 10)))
     = [resolved].
Proof. repeat split. Qed.

(** ** Terminal transitions *)

(** C4.  A Complete-order call by a participant on an order whose status
    is already completed answers 400 (already completed) and leaves the
    whole store, hence the order and every wallet, as it was; an
    administrator's Resolve-dispute call on a dispute that is already
    resolved answers 400 (already resolved) and leaves the whole store,
    hence the dispute, as it was. *)
Theorem terminal_transitions_not_repeated :
  (forall st req uid data order,
      is_post "/api/complete-order" req ->
      authenticate st req = Some uid ->
      body req = Some data ->
      find (fun o => id_is (field "orderId" data) (Order.id o)) (orders st)
        = Some order ->
      participant uid order ->
      Order.status order = completed ->
      handleRequest st req
      = (st, mkResponse 400 (PError "Order already completed")))
  /\ (forall st req data dispute,
        is_post "/api/adm/resolve-dispute" req ->
        acts_as_admin st (authenticate st req) ->
        body req = Some data ->
        find (fun d => id_is (field "disputeId" data) (Dispute.id d))
             (disputes st) = Some dispute ->
        Dispute.status dispute = resolved ->
        handleRequest st req
        = (st, mkResponse 400 (PError "Dispute already resolved"))).
Proof.
  split.
  - intros st req uid data order Hp Ha Hb Hf Hpart Hs.
    rewrite (route_completeOrder _ _ Hp), Ha. unfold completeOrder.
    now rewrite Hb, Hf, (same_id_participant _ _ Hpart), Hs.
  - intros st req data dispute Hp Ha Hb Hf Hs.
    rewrite (admin_resolveDispute _ _ Hp Ha).
    eapply resolveDispute_resolved; eauto.
Qed.

Lemma terminal_transitions_not_repeated_witness :
  handleRequest settled (complete_1 9)
  = (settled, mkResponse 400 (PError "Order already completed"))
  /\ handleRequest resolved_once (resolve_1 true 10)
     = (resolved_once, mkResponse 400 (PError "Dispute already resolved")).
Proof.
  split.
  - exact (proj1 terminal_transitions_not_repeated
             settled (complete_1 9) "3" [("orderId", JStr "1")]
             (Order.mk "1" "3" "2" "1" (Fin 50) completed 7 (Fin 0) (Some 8) None)
             (conj eq_refl eq_refl) eq_refl eq_refl eq_refl
             (or_introl eq_refl) eq_refl).
  - exact (proj2 terminal_transitions_not_repeated
             resolved_once (resolve_1 true 10)
             [("disputeId", JStr "1"); ("resolution", JStr "settled");
              ("releaseToSeller", JBool true)]
             (Dispute.mk "1" (JStr "1") "3" (JStr "not delivered") resolved
                         (JStr "settled") 8 (Some 9))
             (conj eq_refl eq_refl) eq_refl eq_refl eq_refl eq_refl).
Defined.

(** ** Authorisation of messages and disputes *)

Lemma not_admin st uid :
  ~ acts_as_admin st uid ->
  negb (has_role "admin" (find_user uid (users st))) = true.
Proof.
  unfold acts_as_admin. intros H.
  now destruct (has_role "admin" (find_user uid (users st))).
Qed.

Lemma allowed_test uid o st :
  participant uid o \/ acts_as_admin st (Some uid) ->
  negb (same_id (Some uid) (Order.buyerId o))
  && negb (same_id (Some uid) (Order.sellerId o))
  && negb (has_role "admin" (find_user (Some uid) (users st))) = false.
Proof.
  intros [H|H].
  - now rewrite (same_id_participant _ _ H).
  - unfold acts_as_admin in H. rewrite H. apply andb_false_r.
Qed.




(** ** Admin delete-user *)






(** ** Administrators *)

Section Counting.
Context {A : Type}.
Variable g : A -> bool.



End Counting.






(** A registration that asks for the role admin is stored as it is. *)
Example register_with_admin_role : admin_count two_admins = 2%nat.
Proof. reflexivity. Qed.

(** ** Wallets *)

Section Sign.
Import SpecFloat.
Let prec := FloatOps.prec.
Let emax := FloatOps.emax.








End Sign.














(** ** Identifiers *)

(** C9 fails on the code: identifiers are the array length plus one, so
    after a deletion the next registration reuses the identifier of an
    existing user. *)
Lemma duplicate_user_id_after_deletion :
  map User.id (users renumbered) = ["1"; "3"; "3"]
  /\ ~ NoDup (map User.id (users renumbered)).
Proof.
  split; [reflexivity|].
  intros H. change (NoDup ["1"; "3"; "3"]%string) in H.
  inversion H as [|? ? _ H1]. inversion H1 as [|? ? Hn _].
  apply Hn. now left.
Qed.

(** * Further properties of the handlers *)

(** ** The router, by cases *)

(** To prove a property of the answer to a request it is enough to prove
    it of an answer that leaves the store alone and of the answer of each
    mutating handler, on the requests routed to it. *)
Lemma admin_cases st req uid (Q : state * response -> Prop) :
  (forall r, Q (st, r)) ->
  (acts_as_admin st uid -> is_post "/api/adm/delete-gig" req ->
   Q (deleteGig st req)) ->
  (acts_as_admin st uid -> is_post "/api/adm/delete-user" req ->
   Q (deleteUser st req)) ->
  (acts_as_admin st uid -> is_post "/api/adm/resolve-dispute" req ->
   Q (resolveDispute st req)) ->
  Q (admin st req uid).
Proof.
  intros Hsame Hgig Huser Hres. unfold admin, sendJson.
  destruct (has_role "admin" (find_user uid (users st))) eqn:Ha; simpl;
    [|apply Hsame].
  repeat match goal with
         | |- context [if ?c then _ else _] => destruct c eqn:?
         end; try apply Hsame.
  - apply Hgig; [exact Ha | now apply is_post_test].
  - apply Huser; [exact Ha | now apply is_post_test].
  - apply Hres; [exact Ha | now apply is_post_test].
Qed.

Lemma handleRequest_cases st req (Q : state * response -> Prop) :
  (forall r, Q (st, r)) ->
  (is_post "/api/register" req -> Q (register st req)) ->
  (is_post "/api/login" req -> Q (login st req)) ->
  (is_post "/api/gigs" req -> Q (createGig st req (authenticate st req))) ->
  (is_post "/api/orders" req -> Q (createOrder st req (authenticate st req))) ->
  (is_post "/api/complete-order" req ->
   Q (completeOrder st req (authenticate st req))) ->
  (method req = "GET" -> Q (getMessages st req (authenticate st req))) ->
  (is_post "/api/messages" req -> Q (postMessage st req (authenticate st req))) ->
  (is_post "/api/disputes" req ->
   Q (createDispute st req (authenticate st req))) ->
  (Q (admin st req (authenticate st req))) ->
  Q (handleRequest st req).
Proof.
  intros Hsame Hreg Hlog Hgig Hord Hcom Hget Hmsg Hdis Hadm.
  unfold handleRequest.
  repeat match goal with
         | |- context [if ?c then _ else _] => destruct c eqn:?
         end;
    try (apply Hsame);
    try (match goal with
         | H : (_ && _) = true |- _ => apply is_post_test in H
         end; auto; fail).
  - unfold getGig, sendJson.
    match goal with |- context [find ?p ?l] => destruct (find p l) end;
      apply Hsame.
  - unfold listOrders, sendJson. destruct (authenticate st req); apply Hsame.
  - apply Hget.
    match goal with
    | H : (_ && _) = true |- _ => apply andb_true_iff in H as [H _];
                                  now apply String.eqb_eq in H
    end.
  - exact Hadm.
  - unfold serveStatic, sendJson. destruct (file_found req); apply Hsame.
Qed.

(** ** Failures change nothing *)

(** X1.  Whatever the request, an answer with an error status (400 or
    above) leaves the whole store, token store included, as it was. *)
Theorem error_leaves_store_unchanged st req :
  400 <= code (snd (handleRequest st req)) -> step st req = st.
Proof.
  unfold step.
  apply (handleRequest_cases st req
           (fun r => 400 <= code (snd r) -> fst r = st)).
  - reflexivity.
  - intros _. unfold register. no_change_on_error.
  - intros _. unfold login. no_change_on_error.
  - intros _. unfold createGig. no_change_on_error.
  - intros _. unfold createOrder. no_change_on_error.
  - intros _. unfold completeOrder. no_change_on_error.
  - intros _. unfold getMessages. no_change_on_error.
  - intros _. unfold postMessage. no_change_on_error.
  - intros _. unfold createDispute. no_change_on_error.
  - apply admin_cases.
    + reflexivity.
    + intros _ _. unfold deleteGig. no_change_on_error.
    + intros _ _. unfold deleteUser. no_change_on_error.
    + intros _ _. unfold resolveDispute. no_change_on_error.
Qed.

Lemma error_leaves_store_unchanged_witness :
  step settled (complete_1 9) = settled.
Proof.
  apply error_leaves_store_unchanged. intros H. discriminate H.
Defined.

(** ** Requests that only read *)

Lemma initialised_orders p os :
  Forall2 same_or_initialised os (update_first p init_messages os).
Proof.
  induction os as [|o os IH]; simpl; [constructor|].
  destruct (p o).
  - constructor; [now right|].
    clear IH. induction os; constructor; auto. now left.
  - constructor; [now left | exact IH].
Qed.

Lemma untouched_orders os : Forall2 same_or_initialised os os.
Proof. induction os; constructor; auto. now left. Qed.

Lemma not_post path req : method req = "GET" -> ~ is_post path req.
Proof. intros Hm [Hp _]. rewrite Hm in Hp. discriminate. Qed.

(** X2.  A GET request changes no user, gig, dispute or token, and
    leaves every order as it was except that reading the messages of an
    order replaces an absent message array by the empty one. *)
Theorem get_only_initialises_messages st req :
  method req = "GET" ->
  users (step st req) = users st
  /\ gigs (step st req) = gigs st
  /\ disputes (step st req) = disputes st
  /\ tokenStore (step st req) = tokenStore st
  /\ Forall2 same_or_initialised (orders st) (orders (step st req)).
Proof.
  intros Hm. unfold step.
  apply (handleRequest_cases st req
           (fun r => users (fst r) = users st
                     /\ gigs (fst r) = gigs st
                     /\ disputes (fst r) = disputes st
                     /\ tokenStore (fst r) = tokenStore st
                     /\ Forall2 same_or_initialised (orders st)
                                (orders (fst r))));
    try (intros H; now apply (not_post _ _ Hm) in H).
  - intros r. simpl. repeat split. apply untouched_orders.
  - intros _. unfold getMessages, sendJson. split_tests; simpl;
      repeat split; try apply untouched_orders.
    apply initialised_orders.
  - apply admin_cases;
      try (intros _ H; now apply (not_post _ _ Hm) in H).
    intros r. simpl. repeat split. apply untouched_orders.
Qed.

Lemma get_only_initialises_messages_witness :
  users (step (market (JNum (Fin 50))) (get_messages_1 "B" 9))
  = users (market (JNum (Fin 50)))
  /\ Forall2 same_or_initialised
       (orders (market (JNum (Fin 50))))
       (orders (step (market (JNum (Fin 50))) (get_messages_1 "B" 9))).
Proof.
  destruct (get_only_initialises_messages
              (market (JNum (Fin 50))) (get_messages_1 "B" 9) eq_refl)
    as (Hu & _ & _ & _ & Ho).
  split; [exact Hu | exact Ho].
Defined.

(** ** Gates *)

(** X3.  Every request other than OPTIONS whose path starts with
    /api/adm, sent by anyone whose user record does not have the role
    admin (an unknown token included), is answered 403 and changes
    nothing. *)
Theorem admin_paths_need_admin st req :
  method req <> "OPTIONS" ->
  prefix "/api/adm" (pathname req) = true ->
  ~ acts_as_admin st (authenticate st req) ->
  handleRequest st req = (st, mkResponse 403 (PError "Admin only")).
Proof.
  intros Hm Hp Ha. apply prefix_split in Hp as [r Hp].
  apply String.eqb_neq in Hm. apply not_admin in Ha.
  unfold handleRequest. rewrite Hm, Hp. cbn.
  rewrite !andb_false_r.
  destruct r; cbn; unfold admin; rewrite Ha; reflexivity.
Qed.

Lemma admin_paths_need_admin_witness :
  handleRequest disputed (post "/api/adm/resolve-dispute" (Some "S")
                               [("disputeId", JStr "1");
                                ("releaseToSeller", JBool true)] 9)
  = (disputed, mkResponse 403 (PError "Admin only")).
Proof.
  apply admin_paths_need_admin.
  - discriminate.
  - reflexivity.
  - intros H. discriminate H.
Defined.

(** X4.  Creating a gig, placing or completing an order, posting a
    message, filing a dispute and listing one's orders are answered 401,
    with nothing changed, when the request carries no token or a token
    the server did not issue. *)
Theorem unknown_token_unauthorized st req :
  authenticate st req = None ->
  needs_login req ->
  handleRequest st req = (st, mkResponse 401 (PError "Unauthorized")).
Proof.
  intros Ha H. unfold handleRequest.
  destruct H as [[Hm Hp]|[[Hm Hp]|[[Hm Hp]|[[Hm Hp]|[[Hm Hp]|[Hm Hp]]]]]];
    rewrite Hm, Hp, Ha; reflexivity.
Qed.

Lemma unknown_token_unauthorized_witness :
  handleRequest (market (JNum (Fin 50)))
                (post "/api/complete-order" (Some "nobody")
                      [("orderId", JStr "1")] 9)
  = (market (JNum (Fin 50)), mkResponse 401 (PError "Unauthorized")).
Proof.
  apply unknown_token_unauthorized.
  - reflexivity.
  - right; right; left. split; reflexivity.
Defined.

(** ** Registration and e-mail addresses *)

Lemma route_register st req :
  is_post "/api/register" req -> handleRequest st req = register st req.
Proof. intros [Hm Hp]. unfold handleRequest. now rewrite Hm, Hp. Qed.

Lemma strict_eq_truthy v : truthy v = true -> strict_eq v v = true.
Proof.
  destruct v as [| |b|n|s]; simpl; try discriminate.
  - intros _. apply Bool.eqb_reflx.
  - intros H. now apply andb_prop in H.
  - intros _. apply String.eqb_refl.
Qed.

(** How one request changes the user array. *)
Lemma users_step st req :
  users (step st req) = users st
  \/ (exists data,
        is_post "/api/register" req /\ body req = Some data
        /\ truthy (field "email" data) = true
        /\ find (fun u => strict_eq (User.email u) (field "email" data))
                (users st) = None
        /\ users (step st req)
           = users st
             ++ [User.mk (toString (List.length (users st) + 1))
                         (field "username" data) (field "email" data)
                         (field "password" data) (field "role" data)
                         (Fin 0) "basic" (now req)])
  \/ (exists p e, users (step st req) = update_first p (credit e) (users st))
  \/ (exists p, users (step st req) = remove_first p (users st)).
Proof.
  unfold step.
  apply (handleRequest_cases st req
           (fun r =>
              users (fst r) = users st
              \/ (exists data,
                    is_post "/api/register" req /\ body req = Some data
                    /\ truthy (field "email" data) = true
                    /\ find (fun u => strict_eq (User.email u)
                                                (field "email" data))
                            (users st) = None
                    /\ users (fst r)
                       = users st
                         ++ [User.mk (toString (List.length (users st) + 1))
                                     (field "username" data)
                                     (field "email" data)
                                     (field "password" data)
                                     (field "role" data)
                                     (Fin 0) "basic" (now req)])
              \/ (exists p e,
                    users (fst r) = update_first p (credit e) (users st))
              \/ (exists p, users (fst r) = remove_first p (users st))));
    try (now left).
  - intros Hp. unfold register, sendJson.
    destruct (body req) as [data|] eqn:Hb; [|now left].
    destruct (truthy (field "email" data)) eqn:He;
      [|rewrite orb_true_r; now left].
    match goal with |- context [if ?c then _ else _] => destruct c end;
      [now left|].
    match goal with |- context [find ?p ?l] =>
      destruct (find p l) eqn:Hf end; [now left|].
    right; left. exists data. simpl. auto.
  - intros _. unfold login, sendJson. split_tests; now left.
  - intros _. unfold createGig, sendJson. split_tests; now left.
  - intros _. unfold createOrder, sendJson. split_tests; now left.
  - intros _. unfold completeOrder, sendJson. split_tests; try (now left).
    right; right; left. simpl. eauto.
  - intros _. unfold getMessages, sendJson. split_tests; now left.
  - intros _. unfold postMessage, sendJson. split_tests; now left.
  - intros _. unfold createDispute, sendJson. split_tests; now left.
  - apply admin_cases; try (now left).
    + intros _ _. unfold deleteGig, sendJson. split_tests; now left.
    + intros _ _. unfold deleteUser, sendJson. split_tests; try (now left).
      right; right; right. simpl. eauto.
    + intros _ _. unfold resolveDispute, sendJson.
      split_tests; try (now left).
      right; right; left. simpl. eauto.
Qed.

Lemma NoDup_map_remove_first {A B : Type} (f : A -> B) p (l : list A) :
  NoDup (map f l) -> NoDup (map f (remove_first p l)).
Proof.
  induction l as [|a r IH]; simpl; [auto|].
  intros H. apply NoDup_cons_iff in H as [Hn Hr].
  destruct (p a); [exact Hr|]. simpl. constructor; auto.
  intros Hin. apply Hn. apply in_map_iff in Hin as (x & <- & Hx).
  apply in_map. now apply remove_first_In in Hx.
Qed.

Lemma email_not_stored e us :
  truthy e = true ->
  find (fun u => strict_eq (User.email u) e) us = None ->
  ~ In e (map User.email us).
Proof.
  intros He Hf Hin. apply in_map_iff in Hin as (u & Hu & Hin).
  apply find_none with (x := u) in Hf; trivial.
  rewrite Hu, (strict_eq_truthy _ He) in Hf. discriminate.
Qed.

(** X5.  In every store reached from a first run no two user records
    carry the same e-mail address. *)
Theorem emails_unique st :
  reachable st -> NoDup (map User.email (users st)).
Proof.
  induction 1 as [t0 | st req _ IH _].
  - simpl. constructor; [intros []|constructor].
  - destruct (users_step st req)
      as [->|[(data & _ & _ & He & Hf & ->)|[(p & e & ->)|(p & ->)]]].
    + exact IH.
    + rewrite map_app. simpl.
      apply NoDup_incl_NoDup with (l := field "email" data :: map User.email (users st)).
      * constructor; [now apply email_not_stored | exact IH].
      * rewrite length_app. simpl. lia.
      * intros x [<-|Hx]; apply in_or_app; [right; now left | now left].
    + rewrite update_first_map; [exact IH | reflexivity].
    + now apply NoDup_map_remove_first.
Qed.

Lemma emails_unique_witness :
  NoDup (map User.email (users (market (JNum (Fin 50))))).
Proof. exact (emails_unique _ (market_reachable _)). Defined.

(** X6.  After a registration that was answered 201, a registration
    with the same e-mail address is answered 400 and changes nothing; when
    it carries all four fields the error is that the address exists. *)
Theorem register_same_email_twice st req req' data data' :
  is_post "/api/register" req ->
  body req = Some data ->
  code (snd (handleRequest st req)) = 201 ->
  is_post "/api/register" req' ->
  body req' = Some data' ->
  field "email" data' = field "email" data ->
  code (snd (handleRequest (step st req) req')) = 400
  /\ step (step st req) req' = step st req
  /\ (truthy (field "username" data') = true ->
      truthy (field "password" data') = true ->
      truthy (field "role" data') = true ->
      snd (handleRequest (step st req) req')
      = mkResponse 400 (PError "Email already exists")).
Proof.
  intros Hp Hb Hc Hp' Hb' He.
  assert (Hnew : truthy (field "email" data) = true
                 /\ exists u, In u (users (step st req))
                              /\ User.email u = field "email" data).
  { unfold step. revert Hc. rewrite (route_register _ _ Hp).
    unfold register, sendJson. rewrite Hb.
    destruct (truthy (field "email" data)) eqn:Ht;
      [|rewrite orb_true_r; simpl; intros; discriminate].
    split_tests; simpl; intros Hc; try discriminate.
    split; trivial. eexists. split; [apply in_or_app; right; now left|].
    reflexivity. }
  destruct Hnew as (Ht & u & Hu & Hue).
  assert (Hfound : exists v,
             find (fun u => strict_eq (User.email u) (field "email" data'))
                  (users (step st req)) = Some v).
  { destruct (find _ (users (step st req))) as [v|] eqn:Hf; eauto.
    apply find_none with (x := u) in Hf; trivial.
    rewrite He, Hue, (strict_eq_truthy _ Ht) in Hf. discriminate. }
  destruct Hfound as [v Hv]. clear Hu Hc.
  generalize dependent (step st req). intros st1 Hv.
  unfold step. rewrite (route_register _ _ Hp').
  unfold register, sendJson. rewrite Hb', Hv.
  split; [|split].
  - now destruct (_ || _).
  - now destruct (_ || _).
  - intros -> -> ->. rewrite He, Ht. reflexivity.
Qed.

Lemma register_same_email_twice_witness :
  snd (handleRequest (step (first_run 0)
                           (post_register "sam" "s@x" "pw" "seller" 1))
                     (post_register "tom" "s@x" "pw2" "buyer" 2))
  = mkResponse 400 (PError "Email already exists").
Proof.
  exact (proj2 (proj2 (register_same_email_twice
                         (first_run 0)
                         (post_register "sam" "s@x" "pw" "seller" 1)
                         (post_register "tom" "s@x" "pw2" "buyer" 2)
                         _ _ (conj eq_refl eq_refl) eq_refl eq_refl
                         (conj eq_refl eq_refl) eq_refl eq_refl))
               eq_refl eq_refl eq_refl).
Defined.

(** ** Sessions *)

Lemma substring_all s : substring 0 (String.length s) s = s.
Proof. induction s as [|c s IH]; simpl; [reflexivity|now rewrite IH]. Qed.

Lemma bearer_token tok : remove_substring "Bearer " ("Bearer " ++ tok) = tok.
Proof.
  destruct tok as [|c tok]; [reflexivity|].
  cbn. now rewrite substring_all.
Qed.

Lemma route_login st req :
  is_post "/api/login" req -> handleRequest st req = login st req.
Proof. intros [Hm Hp]. unfold handleRequest. now rewrite Hm, Hp. Qed.

(** X7.  When a login is answered with a token, some stored user record
    has the e-mail address and the password of the request, the answer
    carries that record's identifier and role, and from then on a request
    whose authorization header is "Bearer " followed by the token acts as
    that identifier. *)
Theorem login_token_authenticates st req data tok r uid req' :
  is_post "/api/login" req ->
  body req = Some data ->
  content (snd (handleRequest st req)) = PLoggedIn tok r uid ->
  authorization req' = Some ("Bearer " ++ tok)%string ->
  authenticate (step st req) req' = Some uid
  /\ exists user,
       In user (users st)
       /\ User.id user = uid /\ User.role user = r
       /\ strict_eq (User.email user) (field "email" data) = true
       /\ strict_eq (User.password user) (field "password" data) = true.
Proof.
  intros Hp Hb Hc Hh. unfold step. revert Hc.
  rewrite (route_login _ _ Hp). unfold login, sendJson. rewrite Hb.
  destruct (_ || _); [discriminate|].
  match goal with |- context [find ?p ?l] =>
    destruct (find p l) as [user|] eqn:Hf end; [|discriminate].
  simpl. intros [= <- <- <-]. split.
  - unfold authenticate. rewrite Hh, bearer_token. unfold lookup. simpl.
    now rewrite String.eqb_refl.
  - apply find_In in Hf as [Hin Hm]. apply andb_true_iff in Hm as [He Hw].
    exists user. auto.
Qed.

Lemma login_token_authenticates_witness :
  authenticate (step (first_run 0)
                     (post_login "admin@bazimn.local" "admin" "A" 1))
               (delete_user "1" 2)
  = Some "1".
Proof.
  exact (proj1 (login_token_authenticates
                  (first_run 0)
                  (post_login "admin@bazimn.local" "admin" "A" 1)
                  [("email", JStr "admin@bazimn.local");
                   ("password", JStr "admin")]
                  "A" (JStr "admin") "1" (delete_user "1" 2)
                  (conj eq_refl eq_refl) eq_refl eq_refl eq_refl)).
Defined.

(** How one request changes the token store. *)
Lemma tokenStore_step st req :
  tokenStore (step st req) = tokenStore st
  \/ (is_post "/api/login" req
      /\ exists uid,
           tokenStore (step st req) = (fresh req, uid) :: tokenStore st).
Proof.
  unfold step.
  apply (handleRequest_cases st req
           (fun r =>
              tokenStore (fst r) = tokenStore st
              \/ (is_post "/api/login" req
                  /\ exists uid,
                       tokenStore (fst r) = (fresh req, uid) :: tokenStore st)));
    try (now left).
  - intros _. unfold register, sendJson. split_tests; now left.
  - intros Hp. unfold login, sendJson. split_tests; try (now left).
    right. split; trivial. simpl. eauto.
  - intros _. unfold createGig, sendJson. split_tests; now left.
  - intros _. unfold createOrder, sendJson. split_tests; now left.
  - intros _. unfold completeOrder, sendJson. split_tests; now left.
  - intros _. unfold getMessages, sendJson. split_tests; now left.
  - intros _. unfold postMessage, sendJson. split_tests; now left.
  - intros _. unfold createDispute, sendJson. split_tests; now left.
  - apply admin_cases; try (now left).
    + intros _ _. unfold deleteGig, sendJson. split_tests; now left.
    + intros _ _. unfold deleteUser, sendJson. split_tests; now left.
    + intros _ _. unfold resolveDispute, sendJson. split_tests; now left.
Qed.

(** X8.  A token is never revoked: if a request acts as some user
    identifier, it still acts as that identifier after any other request
    has been handled, the deletion of that user included, unless that
    other request is a login for which the server generates the very same
    token again. *)
Theorem tokens_are_never_revoked st r req uid :
  ~ is_post "/api/login" r
  \/ fresh r <> remove_substring "Bearer "
                  (match authorization req with Some h => h | None => "" end) ->
  authenticate st req = Some uid ->
  authenticate (step st r) req = Some uid.
Proof.
  intros Hr. unfold authenticate.
  destruct (tokenStore_step st r) as [->|(Hp & u & ->)]; [trivial|].
  destruct Hr as [Hr|Hr]; [contradiction|].
  unfold lookup. simpl. apply String.eqb_neq in Hr. now rewrite Hr.
Qed.

Lemma tokens_are_never_revoked_witness :
  users (step disputed (delete_user "3" 9))
  = [User.mk "1" (JStr "admin") (JStr "admin@bazimn.local") (JStr "admin")
             (JStr "admin") (Fin 0) "trusted" 0;
     User.mk "2" (JStr "sam") (JStr "s@x") (JStr "pw") (JStr "seller")
             (Fin 0) "basic" 1]
  /\ authenticate (step disputed (delete_user "3" 9)) (complete_1 10)
     = Some "3".
Proof.
  split; [reflexivity|].
  apply tokens_are_never_revoked.
  - left. intros [_ H]. discriminate H.
  - reflexivity.
Defined.

(** ** Owners are sellers, buyers are buyers *)

Lemma resolves_to_app r us u i :
  resolves_to r us i -> resolves_to r (us ++ [u]) i.
Proof.
  unfold resolves_to, find_user.
  induction us as [|a us IH]; simpl; [discriminate|].
  destruct (User.id a =? i)%string; auto.
Qed.

Lemma resolves_to_credit r p e us i :
  resolves_to r (update_first p (credit e) us) i <-> resolves_to r us i.
Proof.
  unfold resolves_to, find_user.
  induction us as [|a us IH]; simpl; [tauto|].
  destruct (p a); simpl.
  - destruct (User.id a =? i)%string; simpl; tauto.
  - destruct (User.id a =? i)%string; simpl; tauto.
Qed.

Lemma resolves_to_remove_other r uid us i :
  id_is uid i = false ->
  resolves_to r us i ->
  resolves_to r (remove_first (fun u => id_is uid (User.id u)) us) i.
Proof.
  unfold resolves_to, find_user. intros Hi.
  induction us as [|a us IH]; simpl; [auto|].
  destruct (User.id a =? i)%string eqn:Ha.
  - apply String.eqb_eq in Ha. rewrite Ha, Hi. simpl.
    now rewrite Ha, String.eqb_refl.
  - destruct (id_is uid (User.id a)); simpl; [auto|]. now rewrite Ha.
Qed.

Lemma resolves_to_self r us uid u :
  find_user (Some uid) us = Some u ->
  strict_eq (User.role u) (JStr r) = true ->
  resolves_to r us (User.id u).
Proof.
  intros Hf Hr. unfold resolves_to.
  pose proof (find_In _ _ _ Hf) as [_ Hid]. simpl in Hid.
  apply String.eqb_eq in Hid. now rewrite Hid, Hf.
Qed.

Lemma role_inv_users st st' :
  gigs st' = gigs st ->
  (forall r i, resolves_to r (users st) i -> resolves_to r (users st') i) ->
  (forall o', In o' (orders st') ->
     exists o, In o (orders st) /\ Order.buyerId o' = Order.buyerId o
               /\ Order.sellerId o' = Order.sellerId o) ->
  role_inv st -> role_inv st'.
Proof.
  intros Hgs Hu Ho [Hg Hb Hs]. split.
  - rewrite Hgs. intros g Hin. now apply Hu, Hg.
  - intros o' Hin. destruct (Ho o' Hin) as (o & Ho1 & -> & _). now apply Hu, Hb.
  - intros o' Hin. destruct (Ho o' Hin) as (o & Ho1 & _ & ->). now apply Hu, Hs.
Qed.

Lemma updated_order_ids (p : Order.t -> bool) f os :
  (forall o, Order.buyerId (f o) = Order.buyerId o
             /\ Order.sellerId (f o) = Order.sellerId o) ->
  forall o', In o' (update_first p f os) ->
    exists o, In o os /\ Order.buyerId o' = Order.buyerId o
              /\ Order.sellerId o' = Order.sellerId o.
Proof.
  intros Hf o' Hin. apply updated_order in Hin as [?|(o & ? & ->)].
  - exists o'. auto.
  - exists o. destruct (Hf o). auto.
Qed.

Lemma same_orders (os : list Order.t) :
  forall o', In o' os ->
    exists o, In o os /\ Order.buyerId o' = Order.buyerId o
              /\ Order.sellerId o' = Order.sellerId o.
Proof. intros o' H. exists o'. auto. Qed.

Lemma role_inv_step st req : role_inv st -> role_inv (step st req).
Proof.
  intros Hinv. unfold step.
  apply (handleRequest_cases st req (fun r => role_inv (fst r)));
    try (intros; exact Hinv).
  - intros _. unfold register, sendJson. split_tests; simpl; trivial.
    apply (role_inv_users st); simpl; trivial.
    + intros r i. apply resolves_to_app.
    + apply same_orders.
  - intros _. unfold login, sendJson. split_tests; simpl; trivial.
    destruct Hinv. now split.
  - intros _. unfold createGig, sendJson.
    destruct (authenticate st req) as [uid|]; trivial.
    destruct (find_user (Some uid) (users st)) as [seller|] eqn:Hs; trivial.
    destruct (strict_eq (User.role seller) (JStr "seller")) eqn:Hr; trivial.
    simpl. split_tests; simpl; trivial;
      (destruct Hinv as [Hg Hb Ho]; split; simpl; trivial;
       intros g Hin; apply in_app_or in Hin as [Hin|[<-|[]]]; auto;
       simpl; eapply resolves_to_self; eauto).
  - intros _. unfold createOrder, sendJson.
    destruct (authenticate st req) as [uid|]; trivial.
    destruct (find_user (Some uid) (users st)) as [buyer|] eqn:Hs; trivial.
    destruct (strict_eq (User.role buyer) (JStr "buyer")) eqn:Hr; trivial.
    simpl. destruct (body req) as [data|]; trivial.
    match goal with |- context [find ?p ?l] =>
      destruct (find p l) as [gig|] eqn:Hg end; trivial.
    apply find_In in Hg as [Hg _].
    destruct Hinv as [Hgs Hb Ho]. split; simpl; trivial.
    + intros o Hin. apply in_app_or in Hin as [Hin|[<-|[]]]; auto.
      simpl. eapply resolves_to_self; eauto.
    + intros o Hin. apply in_app_or in Hin as [Hin|[<-|[]]]; auto.
      simpl. auto.
  - intros _. unfold completeOrder, sendJson. split_tests; simpl; trivial.
    apply (role_inv_users st); simpl; trivial.
    + intros r i. apply resolves_to_credit.
    + now apply updated_order_ids.
  - intros _. unfold getMessages, sendJson. split_tests; simpl; trivial.
    apply (role_inv_users st); simpl; trivial.
    now apply updated_order_ids.
  - intros _. unfold postMessage, sendJson. split_tests; simpl; trivial.
    apply (role_inv_users st); simpl; trivial.
    now apply updated_order_ids.
  - intros _. unfold createDispute, sendJson. split_tests; simpl; trivial.
    destruct Hinv. now split.
  - apply admin_cases; try (intros; exact Hinv).
    + intros _ _. unfold deleteGig, sendJson. split_tests; simpl; trivial.
      destruct Hinv as [Hg Hb Ho]. split; simpl; trivial.
      intros g Hin. apply remove_first_In in Hin. auto.
    + intros _ _. unfold deleteUser, sendJson.
      destruct (body req) as [data|]; trivial.
      match goal with |- context [find ?p ?l] => destruct (find p l) end;
        trivial.
      destruct Hinv as [Hg Hb Ho]. split; simpl.
      * intros g Hin. apply filter_In in Hin as [Hin Hk].
        apply negb_true_iff in Hk. apply resolves_to_remove_other; auto.
      * intros o Hin. apply filter_In in Hin as [Hin Hk].
        apply andb_true_iff in Hk as [Hk _]. apply negb_true_iff in Hk.
        apply resolves_to_remove_other; auto.
      * intros o Hin. apply filter_In in Hin as [Hin Hk].
        apply andb_true_iff in Hk as [_ Hk]. apply negb_true_iff in Hk.
        apply resolves_to_remove_other; auto.
    + intros _ _. unfold resolveDispute, sendJson.
      destruct (body req) as [data|]; trivial.
      match goal with |- context [find ?p ?l] => destruct (find p l) as [d|] end;
        trivial.
      destruct (Dispute.status d); trivial.
      match goal with |- context [find ?p ?l] =>
        destruct (find p l) as [order|] end; simpl.
      * apply (role_inv_users st); simpl; trivial.
        -- intros r i. destruct (truthy _); trivial.
           apply resolves_to_credit.
        -- now apply updated_order_ids.
      * destruct Hinv. now split.
Qed.

(** X9.  In every store reached from a first run, the user record
    behind the seller identifier of every gig and of every order has the
    role seller, and the one behind the buyer identifier of every order
    has the role buyer; in particular these identifiers never dangle. *)
Theorem owners_are_sellers_buyers_are_buyers st :
  reachable st ->
  (forall g, In g (gigs st) ->
             resolves_to "seller" (users st) (Gig.sellerId g))
  /\ (forall o, In o (orders st) ->
                resolves_to "buyer" (users st) (Order.buyerId o)
                /\ resolves_to "seller" (users st) (Order.sellerId o)).
Proof.
  intros Hr.
  assert (Hinv : role_inv st).
  { induction Hr as [t0 | st req _ IH _].
    - split; simpl; intros ? [].
    - now apply role_inv_step. }
  destruct Hinv as [Hg Hb Ho]. split; auto.
Qed.

Lemma owners_are_sellers_buyers_are_buyers_witness :
  resolves_to "buyer" (users settled) "3"
  /\ resolves_to "seller" (users settled) "2".
Proof.
  refine (proj2 (owners_are_sellers_buyers_are_buyers settled _)
                (Order.mk "1" "3" "2" "1" (Fin 50) completed 7 (Fin 0)
                          (Some 8) None)
                (or_introl eq_refl)).
  unfold settled. apply reachable_any, market_reachable.
Defined.

(** ** Identifiers that stay unique *)

Lemma toString_inj n m : toString n = toString m -> n = m.
Proof.
  unfold toString. intros H.
  apply DecimalNat.Unsigned.to_uint_inj.
  apply (f_equal NilEmpty.uint_of_string) in H.
  rewrite !NilEmpty.usu in H. now injection H.
Qed.

Lemma numbered_NoDup ids : numbered ids -> NoDup ids.
Proof.
  unfold numbered. intros ->.
  apply NoDup_map_NoDup_ForallPairs; [|apply seq_NoDup].
  intros x y _ _. apply toString_inj.
Qed.

Lemma numbered_app {A : Type} (f : A -> string) (l : list A) (x : A) :
  numbered (map f l) ->
  f x = toString (List.length l + 1) ->
  numbered (map f (l ++ [x])).
Proof.
  unfold numbered. rewrite !length_map, length_app, map_app. simpl.
  intros Hl Hx. rewrite Nat.add_1_r, seq_S, map_app, <- Hl. simpl.
  now rewrite Hx, Nat.add_1_r.
Qed.

Lemma numbered_update {A : Type} (f : A -> string) p g (l : list A) :
  (forall x, f (g x) = f x) ->
  numbered (map f l) -> numbered (map f (update_first p g l)).
Proof. intros Hg H. now rewrite update_first_map. Qed.

Lemma numbered_disputes_step st req :
  numbered (map Dispute.id (disputes st)) ->
  numbered (map Dispute.id (disputes (step st req))).
Proof.
  intros Hn. unfold step.
  apply (handleRequest_cases st req
           (fun r => numbered (map Dispute.id (disputes (fst r)))));
    try (intros; exact Hn).
  - intros _. unfold register, sendJson. split_tests; exact Hn.
  - intros _. unfold login, sendJson. split_tests; exact Hn.
  - intros _. unfold createGig, sendJson. split_tests; exact Hn.
  - intros _. unfold createOrder, sendJson. split_tests; exact Hn.
  - intros _. unfold completeOrder, sendJson. split_tests; exact Hn.
  - intros _. unfold getMessages, sendJson. split_tests; exact Hn.
  - intros _. unfold postMessage, sendJson. split_tests; exact Hn.
  - intros _. unfold createDispute, sendJson. split_tests; try exact Hn.
    simpl. now apply numbered_app.
  - apply admin_cases; try (intros; exact Hn).
    + intros _ _. unfold deleteGig, sendJson. split_tests; exact Hn.
    + intros _ _. unfold deleteUser, sendJson. split_tests; exact Hn.
    + intros _ _. unfold resolveDispute, sendJson.
      split_tests; try exact Hn; simpl; now apply numbered_update.
Qed.

(** X10.  Disputes are never deleted, so in every store reached from a
    first run their identifiers are "1", "2", ... in order of filing, and
    no two disputes share an identifier. *)
Theorem dispute_ids_unique st :
  reachable st ->
  numbered (map Dispute.id (disputes st))
  /\ NoDup (map Dispute.id (disputes st)).
Proof.
  intros Hr.
  assert (Hn : numbered (map Dispute.id (disputes st))).
  { induction Hr as [t0 | st req _ IH _].
    - reflexivity.
    - now apply numbered_disputes_step. }
  split; [exact Hn | now apply numbered_NoDup].
Qed.

Lemma dispute_ids_unique_witness :
  NoDup (map Dispute.id (disputes orphaned)).
Proof.
  refine (proj2 (dispute_ids_unique orphaned _)).
  unfold orphaned. apply reachable_any, disputed_reachable.
Defined.

Lemma numbered_store_step st req :
  no_delete req ->
  numbered (map User.id (users st))
  /\ numbered (map Gig.id (gigs st))
  /\ numbered (map Order.id (orders st)) ->
  numbered (map User.id (users (step st req)))
  /\ numbered (map Gig.id (gigs (step st req)))
  /\ numbered (map Order.id (orders (step st req))).
Proof.
  intros [Hng Hnu] Hn. unfold step.
  apply (handleRequest_cases st req
           (fun r => numbered (map User.id (users (fst r)))
                     /\ numbered (map Gig.id (gigs (fst r)))
                     /\ numbered (map Order.id (orders (fst r)))));
    try (intros; exact Hn); destruct Hn as (Hu & Hg & Ho).
  - intros _. unfold register, sendJson.
    split_tests; simpl; repeat split; trivial. now apply numbered_app.
  - intros _. unfold login, sendJson. split_tests; simpl; auto.
  - intros _. unfold createGig, sendJson.
    split_tests; simpl; repeat split; trivial; now apply numbered_app.
  - intros _. unfold createOrder, sendJson.
    split_tests; simpl; repeat split; trivial; now apply numbered_app.
  - intros _. unfold completeOrder, sendJson.
    split_tests; simpl; repeat split; trivial; now apply numbered_update.
  - intros _. unfold getMessages, sendJson.
    split_tests; simpl; repeat split; trivial; now apply numbered_update.
  - intros _. unfold postMessage, sendJson.
    split_tests; simpl; repeat split; trivial; now apply numbered_update.
  - intros _. unfold createDispute, sendJson. split_tests; simpl; auto.
  - apply admin_cases; try (intros; tauto).
    intros _ _. unfold resolveDispute, sendJson.
    split_tests; simpl; repeat split; trivial; now apply numbered_update.
Qed.

(** X11.  As long as no admin deletion (delete-gig, delete-user) has
    been requested, the identifiers of users, of gigs and of orders are
    "1", "2", ... in order of creation, and no two users, gigs or orders
    share an identifier. *)
Theorem ids_unique_without_deletion st :
  reachable_with no_delete st ->
  NoDup (map User.id (users st))
  /\ NoDup (map Gig.id (gigs st))
  /\ NoDup (map Order.id (orders st)).
Proof.
  intros Hr.
  assert (Hn : numbered (map User.id (users st))
               /\ numbered (map Gig.id (gigs st))
               /\ numbered (map Order.id (orders st))).
  { induction Hr as [t0 | st req _ IH Hnd].
    - repeat split.
    - now apply numbered_store_step. }
  destruct Hn as (Hu & Hg & Ho).
  repeat split; now apply numbered_NoDup.
Qed.

Lemma market_no_delete price : reachable_with no_delete (market price).
Proof.
  unfold market. apply reachable_run; [apply reach_first_run|].
  repeat constructor; intros [_ H]; discriminate H.
Qed.

Lemma ids_unique_without_deletion_witness :
  NoDup (map User.id (users (market (JNum (Fin 50))))).
Proof.
  exact (proj1 (ids_unique_without_deletion _ (market_no_delete _))).
Defined.

(** ** Messages *)

Lemma find_update_first {A : Type} (p : A -> bool) f (l : list A) (x : A) :
  find p l = Some x -> p (f x) = true ->
  find p (update_first p f l) = Some (f x).
Proof.
  induction l as [|a r IH]; simpl; [discriminate|].
  destruct (p a) eqn:E; simpl.
  - intros [= ->] ->. reflexivity.
  - rewrite E. auto.
Qed.

(** X12.  After a message was posted to an order by its buyer, its
    seller or an admin, reading the messages of that order (again as its
    buyer, its seller or an admin) returns the messages the order had
    before followed by the new one, which records the poster's identifier,
    the text and the time of posting. *)
Theorem posted_message_is_read_back st req uid data oid order req' uid' :
  is_post "/api/messages" req ->
  authenticate st req = Some uid ->
  body req = Some data ->
  field "orderId" data = JStr oid ->
  oid <> "" ->
  truthy (field "text" data) = true ->
  find (fun o => (Order.id o =? oid)%string) (orders st) = Some order ->
  participant uid order \/ acts_as_admin st (Some uid) ->
  method req' = "GET" ->
  prefix "/api/messages" (pathname req') = true ->
  lookup "orderId" (searchParams req') = Some oid ->
  authenticate st req' = Some uid' ->
  participant uid' order \/ acts_as_admin st (Some uid') ->
  snd (handleRequest st req) = mkResponse 201 (PMessage "Message sent")
  /\ snd (handleRequest (step st req) req')
     = mkResponse 200
         (PMessages (messages_or_empty order
                     ++ [Build_message uid (field "text" data) (now req)])).
Proof.
  intros Hp Ha Hb Ho Hne Ht Hf Hauth Hm' Hp' Hq' Ha' Hauth'.
  apply String.eqb_neq in Hne.
  assert (Hstep : handleRequest st req
                  = (set_orders
                       (update_first (fun o => (Order.id o =? oid)%string)
                          (push_message
                             (Build_message uid (field "text" data) (now req)))
                          (orders st)) st,
                     mkResponse 201 (PMessage "Message sent"))).
  { assert (Htr : truthy (JStr oid) = true) by (simpl; now rewrite Hne).
    rewrite (route_postMessage _ _ Hp), Ha. unfold postMessage.
    rewrite Hb, Ho, Ht, Htr. cbn [negb orb].
    change (fun o => id_is (JStr oid) (Order.id o))
      with (fun o => (Order.id o =? oid)%string).
    now rewrite Hf, (allowed_test _ _ _ Hauth). }
  unfold step. rewrite Hstep. simpl. split; [reflexivity|].
  rewrite (route_getMessages _ _ Hm' Hp').
  change (authenticate (set_orders _ st) req') with (authenticate st req').
  rewrite Ha'. unfold getMessages. rewrite Hq', Hne.
  cbn [orders set_orders users].
  rewrite (find_update_first _ _ _ _ Hf);
    [|simpl; now apply find_In in Hf].
  change (Order.buyerId (push_message _ order)) with (Order.buyerId order).
  change (Order.sellerId (push_message _ order)) with (Order.sellerId order).
  now rewrite (allowed_test _ _ _ Hauth').
Qed.

Lemma posted_message_is_read_back_witness :
  snd (handleRequest (step with_stranger (post_message_1 "S" 10))
                     (get_messages_1 "B" 11))
  = mkResponse 200 (PMessages [Build_message "2" (JStr "hello") 10]).
Proof.
  assert (Hone : "1" <> "") by discriminate.
  exact (proj2 (posted_message_is_read_back
                  with_stranger (post_message_1 "S" 10) "2"
                  [("orderId", JStr "1"); ("text", JStr "hello")] "1" order_1
                  (get_messages_1 "B" 11) "3"
                  (conj eq_refl eq_refl) eq_refl eq_refl eq_refl Hone eq_refl
                  eq_refl (or_introl (or_intror eq_refl))
                  eq_refl eq_refl eq_refl eq_refl
                  (or_introl (or_introl eq_refl)))).
Defined.

Lemma extends_refl o : extends o o.
Proof.
  repeat split. exists []. now rewrite app_nil_r.
Qed.

Lemma extends_all os : Forall2 extends os os.
Proof. induction os; constructor; auto using extends_refl. Qed.

Lemma extends_update p f os :
  (forall o, extends o (f o)) -> Forall2 extends os (update_first p f os).
Proof.
  intros Hf. induction os as [|o os IH]; simpl; [constructor|].
  destruct (p o); constructor; auto using extends_refl, extends_all.
Qed.

Lemma extends_complete t o : extends o (complete t o).
Proof.
  repeat split. exists []. unfold messages_or_empty. simpl.
  now rewrite app_nil_r.
Qed.

Lemma extends_force_complete o : extends o (force_complete o).
Proof.
  repeat split. exists []. unfold messages_or_empty. simpl.
  now rewrite app_nil_r.
Qed.

Lemma extends_init_messages o : extends o (init_messages o).
Proof.
  repeat split. exists []. unfold messages_or_empty. simpl.
  now rewrite app_nil_r.
Qed.

Lemma extends_push_message m o : extends o (push_message m o).
Proof. repeat split. now exists [m]. Qed.

(** X13.  Except for the admin's delete-user, no request removes or
    reorders an order: afterwards the order array is the former one,
    position by position, followed by at most one new order, and each
    former order keeps its identifier, buyer, seller, gig, amount and
    creation time, and its former messages as the beginning of its message
    log. *)
Theorem orders_only_grow st req :
  ~ is_post "/api/adm/delete-user" req ->
  exists kept added,
    orders (step st req) = kept ++ added
    /\ Forall2 extends (orders st) kept
    /\ (List.length added <= 1)%nat.
Proof.
  intros Hnd. unfold step.
  assert (Hsame : forall st', orders st' = orders st ->
            exists kept added,
              orders st' = kept ++ added
              /\ Forall2 extends (orders st) kept
              /\ (List.length added <= 1)%nat).
  { intros st' ->. exists (orders st), []. rewrite app_nil_r.
    auto using extends_all. }
  assert (Hupd : forall p f,
            (forall o, extends o (f o)) ->
            exists kept added,
              update_first p f (orders st) = kept ++ added
              /\ Forall2 extends (orders st) kept
              /\ (List.length added <= 1)%nat).
  { intros p f Hf. exists (update_first p f (orders st)), [].
    rewrite app_nil_r. auto using extends_update. }
  apply (handleRequest_cases st req
           (fun r => exists kept added,
                       orders (fst r) = kept ++ added
                       /\ Forall2 extends (orders st) kept
                       /\ (List.length added <= 1)%nat));
    try (intros; now apply Hsame).
  - intros _. unfold register, sendJson. split_tests; now apply Hsame.
  - intros _. unfold login, sendJson. split_tests; now apply Hsame.
  - intros _. unfold createGig, sendJson. split_tests; now apply Hsame.
  - intros _. unfold createOrder, sendJson.
    split_tests; try (now apply Hsame).
    simpl. eexists (orders st), [_]. auto using extends_all.
  - intros _. unfold completeOrder, sendJson.
    split_tests; try (now apply Hsame).
    simpl. apply Hupd, extends_complete.
  - intros _. unfold getMessages, sendJson.
    split_tests; try (now apply Hsame).
    simpl. apply Hupd, extends_init_messages.
  - intros _. unfold postMessage, sendJson.
    split_tests; try (now apply Hsame).
    simpl. apply Hupd, extends_push_message.
  - intros _. unfold createDispute, sendJson. split_tests; now apply Hsame.
  - apply admin_cases; try (intros; now apply Hsame).
    + intros _ _. unfold deleteGig, sendJson. split_tests; now apply Hsame.
    + intros _ _. unfold resolveDispute, sendJson.
      split_tests; try (now apply Hsame);
        simpl; apply Hupd, extends_force_complete.
Qed.

Lemma orders_only_grow_witness :
  exists kept added,
    orders (step with_stranger (post_message_1 "S" 10)) = kept ++ added
    /\ Forall2 extends (orders with_stranger) kept
    /\ (List.length added <= 1)%nat.
Proof.
  apply orders_only_grow. intros [_ H]. discriminate H.
Defined.

(** ** Gigs *)

Lemma split_without_separator c s : occurs c s = false -> split c s = [s].
Proof.
  induction s as [|a r IH]; simpl; [reflexivity|].
  intros H. apply orb_false_iff in H as [Ha Hr].
  now rewrite Ha, (IH Hr).
Qed.

(** X14.  A GET whose path starts with /api/gigs/ looks a gig up by
    everything that follows /api/gigs/ in the raw URL up to the next
    slash, a query string included: it answers 200 with the first gig
    carrying exactly that identifier and 404 when there is none. *)
Theorem get_gig_uses_raw_url st req j :
  method req = "GET" ->
  prefix "/api/gigs/" (pathname req) = true ->
  url req = ("/api/gigs/" ++ j)%string ->
  occurs "/" j = false ->
  handleRequest st req
  = match find (fun g => (Gig.id g =? j)%string) (gigs st) with
    | Some gig => (st, mkResponse 200 (PGig gig))
    | None => (st, mkResponse 404 (PError "Gig not found"))
    end.
Proof.
  intros Hm Hp Hu Hj. apply prefix_split in Hp as [r Hp].
  unfold handleRequest. rewrite Hm, Hp. cbn.
  replace (prefix "" r) with true by now destruct r.
  unfold getGig. rewrite Hu. cbn.
  rewrite (split_without_separator _ _ Hj). reflexivity.
Qed.

Lemma get_gig_uses_raw_url_witness :
  code (snd (handleRequest (market (JNum (Fin 50)))
                           (get "/api/gigs/1" "/api/gigs/1" None 9))) = 200
  /\ handleRequest (market (JNum (Fin 50)))
                   (get "/api/gigs/1?lang=en" "/api/gigs/1" None 9)
     = (market (JNum (Fin 50)), mkResponse 404 (PError "Gig not found")).
Proof.
  split.
  - rewrite (get_gig_uses_raw_url (market (JNum (Fin 50)))
               (get "/api/gigs/1" "/api/gigs/1" None 9) "1"
               eq_refl eq_refl eq_refl eq_refl).
    reflexivity.
  - exact (get_gig_uses_raw_url (market (JNum (Fin 50)))
             (get "/api/gigs/1?lang=en" "/api/gigs/1" None 9) "1?lang=en"
             eq_refl eq_refl eq_refl eq_refl).
Defined.

Lemma route_createGig st req :
  is_post "/api/gigs" req ->
  handleRequest st req = createGig st req (authenticate st req).
Proof. intros [Hm Hp]. unfold handleRequest. now rewrite Hm, Hp. Qed.

Lemma resolves_to_found r us uid :
  resolves_to r us uid ->
  exists u, find_user (Some uid) us = Some u
            /\ User.id u = uid /\ strict_eq (User.role u) (JStr r) = true.
Proof.
  unfold resolves_to. intros H.
  destruct (find_user (Some uid) us) as [u|] eqn:Hf; [|discriminate].
  exists u. repeat split; trivial.
  apply find_In in Hf as [_ Hf]. simpl in Hf. now apply String.eqb_eq.
Qed.

Lemma not_resolves_to r us uid :
  ~ resolves_to r us uid ->
  match find_user (Some uid) us with
  | Some u => strict_eq (User.role u) (JStr r) = false
  | None => True
  end.
Proof.
  unfold resolves_to. destruct (find_user (Some uid) us); simpl; [|trivial].
  now destruct (strict_eq _ _).
Qed.

(** X15.  A gig is created only for a user whose record has the role
    seller: with a title, a description and a price the answer is 201 and
    one gig is appended, owned by the acting user, priced by parseFloat of
    the given price, numbered by the length of the gig array plus one and
    filed under "General" when no category is given; for anyone else, an
    admin included, the answer is 403 and nothing changes. *)
Theorem create_gig_for_sellers_only st req uid data :
  is_post "/api/gigs" req ->
  authenticate st req = Some uid ->
  body req = Some data ->
  (resolves_to "seller" (users st) uid ->
   truthy (field "title" data) = true ->
   truthy (field "description" data) = true ->
   truthy (field "price" data) = true ->
   exists gig,
     handleRequest st req
     = (set_gigs (gigs st ++ [gig]) st, mkResponse 201 (PGig gig))
     /\ gig = Gig.mk (toString (List.length (gigs st) + 1)) uid
                     (field "title" data) (field "description" data)
                     (parseFloat (field "price" data))
                     (if truthy (field "category" data)
                      then field "category" data else JStr "General")
                     (now req))
  /\ (~ resolves_to "seller" (users st) uid ->
      handleRequest st req
      = (st, mkResponse 403 (PError "Only sellers can create gigs"))).
Proof.
  intros Hp Ha Hb. rewrite (route_createGig _ _ Hp), Ha. unfold createGig.
  split.
  - intros Hs Ht Hd Hpr.
    destruct (resolves_to_found _ _ _ Hs) as (u & -> & Hid & ->).
    rewrite Hb, Ht, Hd, Hpr, Hid. simpl. eexists. split; reflexivity.
  - intros Hs. apply not_resolves_to in Hs.
    destruct (find_user (Some uid) (users st)); [|reflexivity].
    now rewrite Hs.
Qed.

Lemma create_gig_for_sellers_only_witness :
  handleRequest (market (JNum (Fin 50)))
                (post "/api/gigs" (Some "A")
                      [("title", JStr "t"); ("description", JStr "d");
                       ("price", JNum (Fin 5))] 9)
  = (market (JNum (Fin 50)),
     mkResponse 403 (PError "Only sellers can create gigs")).
Proof.
  refine (proj2 (create_gig_for_sellers_only
                   (market (JNum (Fin 50)))
                   (post "/api/gigs" (Some "A")
                         [("title", JStr "t"); ("description", JStr "d");
                          ("price", JNum (Fin 5))] 9)
                   "1" _ (conj eq_refl eq_refl) eq_refl eq_refl) _).
  intros H. discriminate H.
Defined.

(** ** Orders *)

Lemma route_createOrder st req :
  is_post "/api/orders" req ->
  handleRequest st req = createOrder st req (authenticate st req).
Proof. intros [Hm Hp]. unfold handleRequest. now rewrite Hm, Hp. Qed.

(** X16.  An order is placed only for a user whose record has the role
    buyer: when the requested gig exists the answer is 201 and one order
    is appended, in_progress, with the acting user as buyer, the gig's
    seller and identifier, the gig's price as amount and as escrow, no
    completion time and no messages, while users, wallets included, gigs
    and disputes are untouched; when no gig has the requested identifier
    the answer is 404; for anyone who is not a buyer, an admin included,
    the answer is 403.  Nothing changes in the last two cases. *)
Theorem place_order_for_buyers_only st req uid data :
  is_post "/api/orders" req ->
  authenticate st req = Some uid ->
  body req = Some data ->
  (resolves_to "buyer" (users st) uid ->
   forall gig,
     find (fun g => id_is (field "gigId" data) (Gig.id g)) (gigs st)
       = Some gig ->
     exists order,
       handleRequest st req
       = (set_orders (orders st ++ [order]) st, mkResponse 201 (POrder order))
       /\ order = Order.mk (toString (List.length (orders st) + 1)) uid
                           (Gig.sellerId gig) (Gig.id gig) (Gig.price gig)
                           in_progress (now req) (Gig.price gig) None None)
  /\ (resolves_to "buyer" (users st) uid ->
      find (fun g => id_is (field "gigId" data) (Gig.id g)) (gigs st) = None ->
      handleRequest st req = (st, mkResponse 404 (PError "Gig not found")))
  /\ (~ resolves_to "buyer" (users st) uid ->
      handleRequest st req
      = (st, mkResponse 403 (PError "Only buyers can place orders"))).
Proof.
  intros Hp Ha Hb. rewrite (route_createOrder _ _ Hp), Ha. unfold createOrder.
  split; [|split].
  - intros Hs gig Hg.
    destruct (resolves_to_found _ _ _ Hs) as (u & -> & Hid & ->).
    rewrite Hb, Hg, Hid. simpl. eexists. split; reflexivity.
  - intros Hs Hg.
    destruct (resolves_to_found _ _ _ Hs) as (u & -> & Hid & ->).
    now rewrite Hb, Hg.
  - intros Hs. apply not_resolves_to in Hs.
    destruct (find_user (Some uid) (users st)); [|reflexivity].
    now rewrite Hs.
Qed.

Lemma place_order_for_buyers_only_witness :
  handleRequest (market (JNum (Fin 50)))
                (post "/api/orders" (Some "A") [("gigId", JStr "1")] 9)
  = (market (JNum (Fin 50)),
     mkResponse 403 (PError "Only buyers can place orders"))
  /\ handleRequest (market (JNum (Fin 50)))
                   (post "/api/orders" (Some "B") [("gigId", JStr "7")] 9)
     = (market (JNum (Fin 50)), mkResponse 404 (PError "Gig not found")).
Proof.
  split.
  - refine (proj2 (proj2 (place_order_for_buyers_only
                            (market (JNum (Fin 50)))
                            (post "/api/orders" (Some "A")
                                  [("gigId", JStr "1")] 9)
                            "1" _ (conj eq_refl eq_refl) eq_refl eq_refl)) _).
    intros H. discriminate H.
  - exact (proj1 (proj2 (place_order_for_buyers_only
                           (market (JNum (Fin 50)))
                           (post "/api/orders" (Some "B")
                                 [("gigId", JStr "7")] 9)
                           "3" _ (conj eq_refl eq_refl) eq_refl eq_refl))
                 eq_refl eq_refl).
Defined.

(** ** Disputes *)

(** X17.  Filing a dispute asks nothing of the order but that it exists
    and that the acting user is its buyer or seller: whatever the order's
    status and whatever disputes already exist, the answer is 201 and one
    open dispute is appended, numbered by the length of the dispute array
    plus one, with no resolution and no resolution time; users, gigs and
    orders, status and escrow included, are untouched. *)
Theorem dispute_filed_whatever_the_order_state st req uid data order :
  is_post "/api/disputes" req ->
  authenticate st req = Some uid ->
  body req = Some data ->
  truthy (field "orderId" data) = true ->
  truthy (field "reason" data) = true ->
  find (fun o => id_is (field "orderId" data) (Order.id o)) (orders st)
    = Some order ->
  participant uid order ->
  exists dispute,
    handleRequest st req
    = (set_disputes (disputes st ++ [dispute]) st,
       mkResponse 201 (PDispute dispute))
    /\ dispute = Dispute.mk (toString (List.length (disputes st) + 1))
                            (field "orderId" data) uid (field "reason" data)
                            open JNull (now req) None.
Proof.
  intros Hp Ha Hb Ho Hr Hf Hpart.
  rewrite (route_createDispute _ _ Hp), Ha. unfold createDispute.
  rewrite Hb, Ho, Hr, Hf, (same_id_participant _ _ Hpart).
  eexists. split; reflexivity.
Qed.

Lemma dispute_filed_whatever_the_order_state_witness :
  map Dispute.status (disputes (step resolved_once (dispute_1 10)))
  = [resolved; open]
  /\ orders (step resolved_once (dispute_1 10)) = orders resolved_once.
Proof.
  destruct (dispute_filed_whatever_the_order_state
              resolved_once (dispute_1 10) "3"
              [("orderId", JStr "1"); ("reason", JStr "not delivered")]
              (Order.mk "1" "3" "2" "1" (Fin 50) completed 7 (Fin 0) None None)
              (conj eq_refl eq_refl) eq_refl eq_refl eq_refl eq_refl eq_refl
              (or_introl eq_refl)) as (d & Hd & ->).
  unfold step. rewrite Hd. split; reflexivity.
Defined.

Lemma update_first_fixed {A : Type} (p : A -> bool) f (l : list A) :
  (forall x, In x l -> p x = true -> f x = x) -> update_first p f l = l.
Proof.
  induction l as [|a r IH]; simpl; [reflexivity|]. intros H.
  destruct (p a) eqn:E.
  - rewrite H; auto.
  - rewrite IH; auto.
Qed.

Lemma update_first_same {A : Type} (p : A -> bool) f (l : list A) (x : A) :
  find p l = Some x -> f x = x -> update_first p f l = l.
Proof.
  induction l as [|a r IH]; simpl; [reflexivity|].
  destruct (p a).
  - intros [= ->] ->. reflexivity.
  - intros Hf Hx. now rewrite IH.
Qed.

Lemma force_complete_settled o :
  Order.status o = completed -> Order.escrow o = Fin 0 -> force_complete o = o.
Proof.
  destruct o. simpl. intros -> ->. reflexivity.
Qed.

(** X18.  Escrow is paid out once: when every completed order of the
    store holds no escrow, resolving a dispute whose order is already
    completed changes no order and no gig, whatever releaseToSeller says;
    the user array is untouched, or the order's seller is credited with
    the order's escrow, which is 0. *)
Theorem resolving_settled_order_pays_nothing st req data dispute order :
  (forall o, In o (orders st) -> order_ok o) ->
  is_post "/api/adm/resolve-dispute" req ->
  acts_as_admin st (authenticate st req) ->
  body req = Some data ->
  find (fun d => id_is (field "disputeId" data) (Dispute.id d)) (disputes st)
    = Some dispute ->
  Dispute.status dispute = open ->
  find (fun o => id_is (Dispute.orderId dispute) (Order.id o)) (orders st)
    = Some order ->
  Order.status order = completed ->
  code (snd (handleRequest st req)) = 200
  /\ Order.escrow order = Fin 0
  /\ (users (step st req) = users st
      \/ users (step st req)
         = update_first (fun u => (User.id u =? Order.sellerId order)%string)
                        (credit (Fin 0)) (users st))
  /\ orders (step st req) = orders st
  /\ gigs (step st req) = gigs st.
Proof.
  intros Hok Hp Ha Hb Hfd Hs Hfo Hc.
  assert (Hsettled : forall o, In o (orders st) ->
                               Order.status o = completed ->
                               Order.escrow o = Fin 0).
  { intros o Hin Hco. destruct (Hok o Hin) as [[? _]|[_ ?]]; congruence. }
  pose proof (find_In _ _ _ Hfo) as [Hin _].
  unfold step. rewrite (admin_resolveDispute _ _ Hp Ha).
  unfold resolveDispute. rewrite Hb, Hfd, Hs, Hfo. simpl.
  rewrite (Hsettled _ Hin Hc). repeat split.
  - destruct (truthy _); [right|left]; reflexivity.
  - apply update_first_same with (x := order); trivial.
    apply force_complete_settled; auto.
Qed.

Lemma resolving_settled_order_pays_nothing_witness :
  (users (step settled_disputed (resolve_1 true 10)) = users settled_disputed
   \/ users (step settled_disputed (resolve_1 true 10))
      = update_first (fun u => (User.id u =? "2")%string)
                     (credit (Fin 0)) (users settled_disputed))
  /\ orders (step settled_disputed (resolve_1 true 10))
     = orders settled_disputed.
Proof.
  assert (Hok : forall o, In o (orders settled_disputed) -> order_ok o).
  { intros o [<-|[]]. right. split; reflexivity. }
  destruct (resolving_settled_order_pays_nothing
              settled_disputed (resolve_1 true 10)
              [("disputeId", JStr "1"); ("resolution", JStr "settled");
               ("releaseToSeller", JBool true)]
              (Dispute.mk "1" (JStr "1") "3" (JStr "not delivered") open JNull
                          9 None)
              (Order.mk "1" "3" "2" "1" (Fin 50) completed 7 (Fin 0) (Some 8)
                        None)
              Hok (conj eq_refl eq_refl) eq_refl eq_refl eq_refl eq_refl
              eq_refl eq_refl) as (_ & _ & Hu & Ho & _).
  split; [exact Hu | exact Ho].
Defined.

(** ** Admin delete-gig *)

Lemma admin_deleteGig st req :
  is_post "/api/adm/delete-gig" req ->
  acts_as_admin st (authenticate st req) ->
  handleRequest st req = deleteGig st req.
Proof.
  intros [Hm Hp] Ha. unfold handleRequest, admin. rewrite Hm, Hp. simpl.
  unfold acts_as_admin in Ha. now rewrite Ha.
Qed.

(** X19.  An admin's delete-gig removes the first gig carrying the
    requested identifier and nothing else: every other gig, every user
    and every order, those placed on the removed gig included, stays as it
    was; when no gig has the identifier the answer is 404 and nothing
    changes. *)
Theorem delete_gig_does_not_cascade st req data :
  is_post "/api/adm/delete-gig" req ->
  acts_as_admin st (authenticate st req) ->
  body req = Some data ->
  (forall gig,
      find (fun g => id_is (field "gigId" data) (Gig.id g)) (gigs st)
        = Some gig ->
      exists l1 l2,
        gigs st = l1 ++ gig :: l2
        /\ (forall g, In g l1 -> JStr (Gig.id g) <> field "gigId" data)
        /\ handleRequest st req
           = (set_gigs (l1 ++ l2) st, mkResponse 200 (PMessage "Gig deleted")))
  /\ (find (fun g => id_is (field "gigId" data) (Gig.id g)) (gigs st) = None ->
      handleRequest st req = (st, mkResponse 404 (PError "Gig not found"))).
Proof.
  intros Hp Ha Hb. rewrite (admin_deleteGig _ _ Hp Ha). unfold deleteGig.
  rewrite Hb. split.
  - intros gig Hf. rewrite Hf.
    destruct (remove_first_found _ _ _ Hf) as (l1 & l2 & E & Hl1 & Hr).
    exists l1, l2. repeat split; trivial.
    + intros g Hg Heq. apply Hl1 in Hg. unfold id_is in Hg.
      rewrite <- Heq in Hg. simpl in Hg. now rewrite String.eqb_refl in Hg.
    + now rewrite Hr.
  - intros ->. reflexivity.
Qed.

Lemma delete_gig_does_not_cascade_witness :
  orders (step (market (JNum (Fin 50))) (delete_gig "1" 9))
  = orders (market (JNum (Fin 50)))
  /\ handleRequest (market (JNum (Fin 50))) (delete_gig "7" 9)
     = (market (JNum (Fin 50)), mkResponse 404 (PError "Gig not found")).
Proof.
  split.
  - destruct (proj1 (delete_gig_does_not_cascade
                       (market (JNum (Fin 50))) (delete_gig "1" 9)
                       [("gigId", JStr "1")]
                       (conj eq_refl eq_refl) eq_refl eq_refl)
                    (Gig.mk "1" "2" (JStr "logo") (JStr "a logo") (Fin 50)
                            (JStr "General") 6) eq_refl)
      as (l1 & l2 & _ & _ & H).
    unfold step. rewrite H. reflexivity.
  - exact (proj2 (delete_gig_does_not_cascade
                    (market (JNum (Fin 50))) (delete_gig "7" 9)
                    [("gigId", JStr "7")]
                    (conj eq_refl eq_refl) eq_refl eq_refl) eq_refl).
Defined.

(** ** Registering, then logging in *)

Lemma find_app_absent {A : Type} (p : A -> bool) (l : list A) (x : A) :
  find p l = None -> find p (l ++ [x]) = if p x then Some x else None.
Proof.
  induction l as [|a r IH]; simpl; [reflexivity|].
  destruct (p a); [discriminate|exact IH].
Qed.

Lemma find_weaker_absent {A : Type} (p q : A -> bool) (l : list A) :
  find p l = None -> find (fun x => p x && q x) l = None.
Proof.
  induction l as [|a r IH]; simpl; [reflexivity|].
  destruct (p a); [discriminate|exact IH].
Qed.

(** X20.  A login with the e-mail address and password of a
    registration that was just answered 201 is answered 200 with the
    identifier that registration returned and the role it asked for,
    and with the token generated for the login. *)
Theorem register_then_login st req data uid req' data' :
  is_post "/api/register" req ->
  body req = Some data ->
  snd (handleRequest st req) = mkResponse 201 (PRegistered uid) ->
  is_post "/api/login" req' ->
  body req' = Some data' ->
  field "email" data' = field "email" data ->
  field "password" data' = field "password" data ->
  snd (handleRequest (step st req) req')
  = mkResponse 200 (PLoggedIn (fresh req') (field "role" data) uid).
Proof.
  intros Hp Hb Hc Hp' Hb' He Hw. unfold step. revert Hc.
  rewrite (route_register _ _ Hp). unfold register, sendJson. rewrite Hb.
  destruct (truthy (field "email" data)) eqn:Hte;
    [|rewrite orb_true_r; simpl; intros; discriminate].
  destruct (truthy (field "password" data)) eqn:Htw;
    [|rewrite orb_true_r; simpl; intros; discriminate].
  match goal with |- context [if ?c then _ else _] => destruct c end;
    [intros; discriminate|].
  match goal with |- context [find ?p ?l] =>
    destruct (find p l) eqn:Hf end; [intros; discriminate|].
  simpl. intros [= <-].
  rewrite (route_login _ _ Hp'). unfold login, sendJson.
  rewrite Hb', He, Hw, Hte, Htw. simpl.
  rewrite find_app_absent; [|now apply find_weaker_absent].
  simpl. now rewrite !strict_eq_truthy.
Qed.

Lemma register_then_login_witness :
  snd (handleRequest (step (first_run 0)
                           (post_register "sam" "s@x" "pw" "seller" 1))
                     (post_login "s@x" "pw" "S" 2))
  = mkResponse 200 (PLoggedIn "S" (JStr "seller") "2").
Proof.
  exact (register_then_login
           (first_run 0) (post_register "sam" "s@x" "pw" "seller" 1)
           _ "2" (post_login "s@x" "pw" "S" 2) _
           (conj eq_refl eq_refl) eq_refl eq_refl
           (conj eq_refl eq_refl) eq_refl eq_refl eq_refl).
Defined.
